(** * Impact-ESG-aware portfolio selection: a shallow embedding

    The notebook [Impact-ESG-aware-portfolio-selection.ipynb] selects
    portfolio weights over an ESG-filtered universe.  This development
    embeds its cells as Rocq functions and proves properties of them.

    Modelling conventions:
    - a Python [float] is an exact rational ([Q], compared with [==]);
      rounding, overflow and signed zeros are outside the model.  Where the
      notebook itself handles [inf] and [NaN] (the return series) the cells
      are values of [fval], which adds the two infinities and [NaN];
    - a Python exception is a value of [PyError], and code that can raise
      returns a [result];
    - a [dict] is a [gmap] with [string] keys, [d[k]] raises [KeyError] on
      an absent key;
    - a [pandas.DataFrame] is the list of its rows, in index order;
    - [scipy.optimize.minimize] is not part of the notebook: a cell that
      calls it is a [prog] whose [Minimize] node records the call. *)

From Stdlib Require Import ZArith QArith Qminmax Lqa Lia List String Ascii Bool Sorted.
From stdpp Require Import base option gmap strings fin_maps pretty.
Import ListNotations.

Local Open Scope string_scope.

(** ** Python exceptions and results *)

Inductive PyError : Type :=
| ZeroDivisionError
| KeyError (key : string)
| ValueError.

Inductive result (A : Type) : Type :=
| Ok (a : A)
| Raise (e : PyError).

Arguments Ok {A} a.
Arguments Raise {A} e.

#[global] Instance result_ret : MRet result := fun A a => Ok a.

#[global] Instance result_bind : MBind result := fun A B k r =>
  match r with
  | Ok a => k a
  | Raise e => Raise e
  end.

(** [[f(x) for x in l]], stopping at the first exception. *)
Fixpoint mapM {A B : Type} (f : A -> result B) (l : list A) : result (list B) :=
  match l with
  | [] => Ok []
  | a :: l' => b ← f a; bs ← mapM f l'; Ok (b :: bs)
  end.

(** [d[k]] on a dict with string keys. *)
Definition dict_getitem {V : Type} (d : gmap string V) (k : string) : result V :=
  match d !! k with
  | Some v => Ok v
  | None => Raise (KeyError k)
  end.

(** ** Python slicing of a [str] *)

(** A slice bound [i] against a sequence of length [len]: a negative bound
    counts from the end, and every bound is clamped to [0, len]. *)
Definition slice_bound (len i : Z) : Z :=
  if (i <? 0)%Z then Z.max 0 (i + len) else Z.min i len.

(** [s[start:stop]] *)
Definition py_slice (s : string) (start stop : Z) : string :=
  let len := Z.of_nat (String.length s) in
  let lo := slice_bound len start in
  let hi := slice_bound len stop in
  if (lo <? hi)%Z then substring (Z.to_nat lo) (Z.to_nat (hi - lo)) s else "".

(** ** Universe selection (Score Provider) *)

(** A row of [df_esg], indexed by [ric]; the ESG score is a number, and the
    business summary, which no later cell reads, is left out. *)
Record esg_row : Type := EsgRow {
  e_ric : string;
  e_name : string;
  e_esg : Q;
  e_nace : string
}.

(** A row of [df_esg_nace] and of [df_esg_constraint]: the columns of
    [df_esg] and the column [nace_code] of [df_nace]. *)
Record nace_row : Type := NaceRow {
  ric : string;
  name : string;
  esg : Q;
  nace : string;
  nace_code : string
}.

(** [df_instr['nace'][-6:-4]] *)
Definition nace_code_of (nace_classification : string) : string :=
  py_slice nace_classification (-6) (-4).

(** [nace_code_list]: one code per instrument, in the order of [ric_list]. *)
Definition nace_code_list (df_esg : list esg_row) : list string :=
  map (fun df_instr => nace_code_of (e_nace df_instr)) df_esg.

(** [pandas.concat([df_esg, df_nace], axis=1)], where [df_nace] pairs
    [ric_list] with [nace_code_list]. *)
Definition concat_nace (df_esg : list esg_row) : list nace_row :=
  zip_with (fun r code => NaceRow (e_ric r) (e_name r) (e_esg r) (e_nace r) code)
           df_esg (nace_code_list df_esg).

(** [...[df_nace['nace_code'].map(len) > 0]] *)
Definition df_esg_nace (df_esg : list esg_row) : list nace_row :=
  List.filter (fun r => (0 <? String.length (nace_code r))%nat) (concat_nace df_esg).

Definition esg_bound : Q := 70.

(** One cell under [.replace('', 'nan')]. *)
Definition replace_empty (cell : string) : string :=
  if String.eqb cell "" then "nan" else cell.

(** [DataFrame.replace('', 'nan')]: every string cell equal to [''] becomes
    ['nan']; the index ([ric]) and the numeric column are left alone. *)
Definition replace_empty_row (r : nace_row) : nace_row :=
  NaceRow (ric r) (replace_empty (name r)) (esg r)
          (replace_empty (nace r)) (replace_empty (nace_code r)).

(** [df_esg_nace[(df_esg_nace.esg >= esg_bound)].replace('','nan')] *)
Definition df_esg_constraint (df_esg : list esg_row) : list nace_row :=
  map replace_empty_row
      (List.filter (fun r => Qle_bool esg_bound (esg r)) (df_esg_nace df_esg)).

(** [K = len(df_esg_constraint.index)] *)
Definition K_of (df_esg : list esg_row) : nat :=
  List.length (df_esg_constraint df_esg).

(** ** Sector tables *)

(** [nace_dict]: NACE division code to its label, in source order. *)
Definition nace_dict_items : list (string * string) :=
  [ ("01", "Crop and animal production, hunting and related service activities");
    ("02", "Forestry and logging");
    ("03", "Fishing and aquaculture");
    ("05", "Mining of coal and lignite");
    ("06", "Extraction of crude petroleum and natural gas");
    ("07", "Mining of metal ores");
    ("08", "Other mining and quarrying");
    ("09", "Mining support service activities");
    ("10", "Manufacture of food products");
    ("11", "Manufacture of beverages");
    ("12", "Manufacture of tobacco products");
    ("13", "Manufacture of textiles");
    ("14", "Manufacture of wearing apparel");
    ("15", "Manufacture of leather and related products");
    ("16", "Manufacture of wood and of products of wood and cork, except furniture; manufacture of articles of straw and plaiting materials");
    ("17", "Manufacture of paper and paper products");
    ("18", "Printing and reproduction of recorded media");
    ("19", "Manufacture of coke and refined petroleum products");
    ("20", "Manufacture of chemicals and chemical products");
    ("21", "Manufacture of basic pharmaceutical products and pharmaceutical preparations");
    ("22", "Manufacture of rubber and plastic products");
    ("23", "Manufacture of other non-metallic mineral products");
    ("24", "Manufacture of basic metals");
    ("25", "Manufacture of fabricated metal products, except machinery and equipment");
    ("26", "Manufacture of computer, electronic and optical products");
    ("27", "Manufacture of electrical equipment");
    ("28", "Manufacture of machinery and equipment n.e.c.");
    ("29", "Manufacture of motor vehicles, trailers and semi-trailers");
    ("30", "Manufacture of other transport equipment");
    ("31", "Manufacture of furniture");
    ("32", "Other manufacturing");
    ("33", "Repair and installation of machinery and equipment");
    ("35", "Electricity, gas, steam and air conditioning supply");
    ("36", "Water collection, treatment and supply");
    ("37", "Sewerage");
    ("38", "Waste collection, treatment and disposal activities; materials recovery");
    ("39", "Remediation activities and other waste management services");
    ("41", "Construction of buildings");
    ("42", "Civil engineering");
    ("43", "Specialised construction activities");
    ("45", "Wholesale and retail trade and repair of motor vehicles and motorcycles");
    ("46", "Wholesale trade, except of motor vehicles and motorcycles");
    ("47", "Retail trade, except of motor vehicles and motorcycles");
    ("49", "Land transport and transport via pipelines");
    ("50", "Water transport");
    ("51", "Air transport");
    ("52", "Warehousing and support activities for transportation");
    ("53", "Postal and courier activities");
    ("55", "Accommodation");
    ("56", "Food and beverage service activities");
    ("58", "Publishing activities");
    ("59", "Motion picture, video and television programme production, sound recording and music publishing activities");
    ("60", "Programming and broadcasting activities");
    ("61", "Telecommunications");
    ("62", "Computer programming, consultancy and related activities");
    ("63", "Information service activities");
    ("64", "Financial service activities, except insurance and pension funding");
    ("65", "Insurance, reinsurance and pension funding, except compulsory social security");
    ("66", "Activities auxiliary to financial services and insurance activities");
    ("68", "Real estate activities");
    ("69", "Legal and accounting activities");
    ("70", "Activities of head offices; management consultancy activities");
    ("71", "Architectural and engineering activities; technical testing and analysis");
    ("72", "Scientific research and development ");
    ("73", "Advertising and market research");
    ("74", "Other professional, scientific and technical activities");
    ("75", "Veterinary activities");
    ("77", "Rental and leasing activities");
    ("78", "Employment activities");
    ("79", "Travel agency, tour operator and other reservation service and related activities");
    ("80", "Security and investigation activities");
    ("81", "Services to buildings and landscape activities");
    ("82", "Office administrative, office support and other business support activities");
    ("84", "Public administration and defence; compulsory social security");
    ("85", "Education");
    ("86", "Human health activities");
    ("87", "Residential care activities");
    ("88", "Social work activities without accommodation");
    ("90", "Creative, arts and entertainment activities");
    ("91", "Libraries, archives, museums and other cultural activities");
    ("92", "Gambling and betting activities");
    ("93", "Sports activities and amusement and recreation activities");
    ("94", "Activities of membership organisations");
    ("95", "Repair of computers and personal and household goods");
    ("96", "Other personal service activities");
    ("97", "Activities of households as employers of domestic personnel");
    ("98", "Undifferentiated goods- and services-producing activities of private households for own use");
    ("99", "Activities of extraterritorial organisations and bodies");
    ("nan", "Others") ].

Definition nace_dict : gmap string string := list_to_map nace_dict_items.

(** [{key: 0 for key in nace_dict.keys()}] followed by
    [nace_impact_dict['41'] = 10]. *)
Definition nace_impact_dict : gmap string Q :=
  <["41" := 10%Q]> ((fun _ => 0%Q) <$> nace_dict).

Arguments nace_dict : simpl never.
Arguments nace_impact_dict : simpl never.
Arguments dict_getitem : simpl never.

(** A row of [df_esg_constraint] once the column [nace_impact] is set. *)
Record impact_row : Type := ImpactRow {
  base : nace_row;
  nace_impact : Q
}.

(** [df_esg_constraint['nace_impact'] =
     df_esg_constraint['nace_code'].apply(lambda x: nace_impact_dict[x])] *)
Definition add_nace_impact (df : list nace_row) : result (list impact_row) :=
  mapM (fun r => x ← dict_getitem nace_impact_dict (nace_code r); Ok (ImpactRow r x)) df.

(** [impact_esg_score = lambda df: df['nace_impact']*(df['esg']-esg_bound)] *)
Definition impact_esg_score (df : list impact_row) : list Q :=
  map (fun r => (nace_impact r * (esg (base r) - esg_bound))%Q) df.

(** ** Return series (Statistics Builder) *)

(** A float cell of a price-derived frame: a finite value, one of the two
    infinities, or the missing marker. *)
Inductive fval : Type :=
| Fin (q : Q)
| PInf
| NInf
| NaN.

(** A frame of the time-series cells: column labels (one per instrument)
    and one row per period. *)
Record DataFrame (A : Type) : Type := Frame {
  columns : list string;
  rows : list (list A)
}.

Arguments Frame {A} columns rows.
Arguments columns {A} d.
Arguments rows {A} d.

(** Float division [a / b]. *)
Definition fdiv (a b : fval) : fval :=
  match a, b with
  | NaN, _ | _, NaN => NaN
  | Fin x, Fin y =>
      if Qeq_bool y 0 then
        (if Qeq_bool x 0 then NaN else if Qle_bool 0 x then PInf else NInf)
      else Fin (x / y)
  | Fin _, (PInf | NInf) => Fin 0
  | PInf, Fin y => if Qle_bool 0 y then PInf else NInf
  | NInf, Fin y => if Qle_bool 0 y then NInf else PInf
  | (PInf | NInf), (PInf | NInf) => NaN
  end.

(** Float subtraction [a - b]. *)
Definition fsub (a b : fval) : fval :=
  match a, b with
  | NaN, _ | _, NaN => NaN
  | Fin x, Fin y => Fin (x - y)
  | Fin _, PInf => NInf
  | Fin _, NInf => PInf
  | PInf, (Fin _ | NInf) => PInf
  | NInf, (Fin _ | PInf) => NInf
  | PInf, PInf | NInf, NInf => NaN
  end.

(** One cell of [data / data.shift(1) - 1]. *)
Definition pct_cell (cur prev : Q) : fval :=
  fsub (fdiv (Fin cur) (Fin prev)) (Fin 1).

Fixpoint pct_rows (prev : list Q) (rest : list (list Q)) : list (list fval) :=
  match rest with
  | [] => []
  | cur :: rest' => zip_with pct_cell cur prev :: pct_rows cur rest'
  end.

(** [DataFrame.pct_change()]: the first period has no predecessor and is
    all missing. *)
Definition pct_change (d : DataFrame Q) : DataFrame fval :=
  Frame (columns d)
        match rows d with
        | [] => []
        | first :: rest => map (fun _ => NaN) first :: pct_rows first rest
        end.

(** One cell under [.replace(numpy.inf, numpy.nan)]: a cell equal to
    [numpy.inf] becomes [numpy.nan]. *)
Definition replace_inf_cell (v : fval) : fval :=
  match v with
  | PInf => NaN
  | _ => v
  end.

Definition replace_inf (d : DataFrame fval) : DataFrame fval :=
  Frame (columns d) (map (map replace_inf_cell) (rows d)).

Definition is_nan (v : fval) : bool :=
  match v with
  | NaN => true
  | _ => false
  end.

(** [DataFrame.dropna()]: a period with a missing cell is dropped whole. *)
Definition dropna (d : DataFrame fval) : DataFrame fval :=
  Frame (columns d) (List.filter (fun row => negb (existsb is_nan row)) (rows d)).

Definition no_ninf (v : fval) : Prop := v <> NInf.

(** [returns = timeseries_data.pct_change().replace(numpy.inf, numpy.nan).dropna()] *)
Definition returns_of (timeseries_data : DataFrame Q) : DataFrame fval :=
  dropna (replace_inf (pct_change timeseries_data)).

Definition is_inf (v : fval) : bool :=
  match v with
  | PInf | NInf => true
  | _ => false
  end.

Definition is_fin (v : fval) : bool :=
  match v with
  | Fin _ => true
  | _ => false
  end.

(** ** Objectives (Objective Composer, Portfolio Metrics) *)

Definition Qsum (l : list Q) : Q := fold_right Qplus 0%Q l.

(** The inner product of two vectors of one length. *)
Definition dot_sum (u v : list Q) : Q := Qsum (zip_with Qmult u v).

(** [numpy.dot(u, v)] of two vectors: the shapes have to agree. *)
Definition numpy_dot (u v : list Q) : result Q :=
  if Nat.eqb (List.length u) (List.length v)
  then Ok (dot_sum u v)
  else Raise ValueError.

(** [numpy.dot(M, v)] of a matrix (by rows) and a vector. *)
Definition numpy_dot_mv (M : list (list Q)) (v : list Q) : result (list Q) :=
  mapM (fun row => numpy_dot row v) M.

(** [def risk_measure(covMatrix, weights):
       return numpy.dot(weights, numpy.dot(covMatrix, weights))] *)
Definition risk_measure (covMatrix : list (list Q)) (weights : list Q) : result Q :=
  cw ← numpy_dot_mv covMatrix weights; numpy_dot weights cw.

(** The value of [risk_measure] on inputs of matching shapes. *)
Definition risk_value (C : list (list Q)) (w : list Q) : Q :=
  dot_sum w (map (fun row => dot_sum row w) C).

(** [returns.sum()]: the sum over the periods, one entry per column. *)
Definition frame_sum (d : DataFrame Q) : list Q :=
  fold_right (zip_with Qplus) (map (fun _ => 0%Q) (columns d)) (rows d).

(** The body that the two blended objectives share, over a return frame
    whose cells are finite:
    [risk_measure(covMatrix, x) - returnCoef*numpy.dot(x, returns.sum())
       - scoreCoef*numpy.dot(x, score)]. *)
Definition blended_objective (returnCoef scoreCoef : Q)
    (covMatrix : list (list Q)) (returns : DataFrame Q) (score : list Q)
    (x : list Q) : result Q :=
  risk ← risk_measure covMatrix x;
  ret ← numpy_dot x (frame_sum returns);
  sc ← numpy_dot x score;
  Ok (risk - returnCoef * ret - scoreCoef * sc)%Q.

(** [lambda x: risk_measure(covMatrix, x)] *)
Definition mvp_objective (covMatrix : list (list Q)) (x : list Q) : result Q :=
  risk_measure covMatrix x.

(** [lambda x: risk_measure(covMatrix, x) - 0.0002*numpy.dot(x, returns.sum())
       - 0.00002*numpy.dot(x, df_esg_constraint['esg'])] *)
Definition esg_ret_objective (covMatrix : list (list Q)) (returns : DataFrame Q)
    (df : list nace_row) (x : list Q) : result Q :=
  blended_objective 0.0002 0.00002 covMatrix returns (map esg df) x.

(** [lambda x: risk_measure(covMatrix, x) - 0.0002*numpy.dot(x, returns.sum())
       - 0.000004*numpy.dot(x, impact_esg_score(df_esg_constraint))] *)
Definition impact_esg_objective (covMatrix : list (list Q)) (returns : DataFrame Q)
    (df : list impact_row) (x : list Q) : result Q :=
  blended_objective 0.0002 0.000004 covMatrix returns (impact_esg_score df) x.

(** The objective as the specification writes it, by index:
    [risk(w) = w^T C w], [totalReturn_i] the sum of the period returns of
    instrument [i], and
    [objective(w) = risk(w) - returnCoef (w . totalReturn) - scoreCoef (w . score)]. *)
Definition sum_upto (n : nat) (f : nat -> Q) : Q := Qsum (map f (seq 0 n)).

Definition entry (M : list (list Q)) (i j : nat) : Q := nth j (nth i M []) 0%Q.

Definition spec_risk (C : list (list Q)) (w : list Q) : Q :=
  sum_upto (List.length w) (fun i =>
    sum_upto (List.length w) (fun j => nth i w 0 * entry C i j * nth j w 0))%Q.

Definition spec_total_return (returns : DataFrame Q) (i : nat) : Q :=
  Qsum (map (fun period => nth i period 0%Q) (rows returns)).

Definition spec_dot (w : list Q) (v : nat -> Q) : Q :=
  sum_upto (List.length w) (fun i => nth i w 0 * v i)%Q.

Definition spec_objective (returnCoef scoreCoef : Q) (C : list (list Q))
    (returns : DataFrame Q) (score : list Q) (w : list Q) : Q :=
  (spec_risk C w
   - returnCoef * spec_dot w (spec_total_return returns)
   - scoreCoef * spec_dot w (fun i => nth i score 0))%Q.

(** The inputs of an objective over [K] instruments: a [K] by [K]
    covariance matrix, a return frame with [K] columns and a score vector
    of length [K]. *)
Definition frame_shaped (K : nat) (C : list (list Q)) (returns : DataFrame Q)
    (score : list Q) : Prop :=
  List.length C = K /\ Forall (fun row => List.length row = K) C /\
  List.length (columns returns) = K /\
  Forall (fun period => List.length period = K) (rows returns) /\
  List.length score = K.

(** ** The optimisation cells (Constrained Optimizer) *)

(** What a cell hands to [sco.minimize]. *)
Record minimize_call : Type := MinimizeCall {
  fun_ : list Q -> result Q;
  x0 : list Q;
  bounds : list (Q * Q);
  constraints : list Q -> Q
}.

(** The part of [OptimizeResult] the notebook reads, and its status flag. *)
Record OptimizeResult : Type := OptResult {
  x : list Q;
  success : bool
}.

(** A cell around the solver: it returns, raises, or calls [sco.minimize]
    and goes on with the result. *)
Inductive prog (A : Type) : Type :=
| Ret (a : A)
| Throw (e : PyError)
| Minimize (call : minimize_call) (k : OptimizeResult -> prog A).

Arguments Ret {A} a.
Arguments Throw {A} e.
Arguments Minimize {A} call k.

(** Running a cell against a solver; the second component lists the solver
    calls made, in order. *)
Fixpoint run {A : Type} (solver : minimize_call -> result OptimizeResult)
    (p : prog A) : result A * list minimize_call :=
  match p with
  | Ret a => (Ok a, [])
  | Throw e => (Raise e, [])
  | Minimize call k =>
      match solver call with
      | Ok r => let '(out, calls) := run solver (k r) in (out, call :: calls)
      | Raise e => (Raise e, [call])
      end
  end.

(** [a / b] on Python ints. *)
Definition py_truediv (a b : nat) : result Q :=
  match b with
  | O => Raise ZeroDivisionError
  | S _ => Ok (inject_Z (Z.of_nat a) / inject_Z (Z.of_nat b))%Q
  end.

(** [bounds = K * [(0, 1)]] *)
Definition bounds_of (K : nat) : list (Q * Q) := repeat (0%Q, 1%Q) K.

(** [constraints = {'type': 'eq', 'fun': lambda weights: weights.sum() - 1}] *)
Definition sum_to_one (weights : list Q) : Q := (Qsum weights - 1)%Q.

(** [sco.minimize(objective, K * [1 / K], bounds=bounds, constraints=constraints)]:
    the arguments are evaluated first, then the solver is called. *)
Definition minimize_cell (objective : list Q -> result Q) (K : nat) : prog OptimizeResult :=
  match py_truediv 1 K with
  | Raise e => Throw e
  | Ok guess =>
      Minimize (MinimizeCall objective (repeat guess K) (bounds_of K) sum_to_one) Ret
  end.

Definition mvp (covMatrix : list (list Q)) (K : nat) : prog OptimizeResult :=
  minimize_cell (mvp_objective covMatrix) K.

Definition esg_ret_mvp (covMatrix : list (list Q)) (returns : DataFrame Q)
    (df : list nace_row) (K : nat) : prog OptimizeResult :=
  minimize_cell (esg_ret_objective covMatrix returns df) K.

Definition impact_esg_mvp (covMatrix : list (list Q)) (returns : DataFrame Q)
    (df : list impact_row) (K : nat) : prog OptimizeResult :=
  minimize_cell (impact_esg_objective covMatrix returns df) K.

(** The feasible region the cells describe to the solver: [K] weights, each
    within its bounds, and the equality constraint at zero. *)
Definition feasible (K : nat) (w : list Q) : Prop :=
  List.length w = K /\ Forall (fun wi => 0 <= wi /\ wi <= 1)%Q w /\ (sum_to_one w == 0)%Q.

(** [w] is optimal for [objective] over the feasible region. *)
Definition is_minimizer (objective : list Q -> result Q) (K : nat) (w : list Q) : Prop :=
  feasible K w /\
  exists v, objective w = Ok v /\
    forall w' v', feasible K w' -> objective w' = Ok v' -> (v <= v')%Q.

(** [numpy.dot(w, score)], the score metric of a portfolio. *)
Definition score_metric (score w : list Q) : result Q := numpy_dot w score.

(** ** Data acquisition *)

(** [N = 350], the number of constituents read. *)
Definition N_constituents : nat := 350.

(** [DataFrame.drop_duplicates(subset=[key])]: of the rows that share a key
    the first one is kept. *)
Fixpoint drop_duplicates_from {A : Type} (key : A -> string) (seen : list string)
    (l : list A) : list A :=
  match l with
  | [] => []
  | a :: l' =>
      if existsb (String.eqb (key a)) seen
      then drop_duplicates_from key seen l'
      else a :: drop_duplicates_from key (key a :: seen) l'
  end.

Definition drop_duplicates {A : Type} (key : A -> string) (l : list A) : list A :=
  drop_duplicates_from key [] l.

(** [constituents = constituents[['ric','name']][0:N].drop_duplicates(subset=['ric'])]
    [ric_list = list(constituents.ric[constituents.ric.astype(bool)])],
    on the pairs (ric, name). *)
Definition ric_list_of (constituents : list (string * string)) : list string :=
  List.filter (fun r => negb (String.eqb r ""))
    (map fst (drop_duplicates fst (firstn N_constituents constituents))).

(** [df_esg = df_esg.drop_duplicates(subset=['ric']).set_index('ric')] *)
Definition df_esg_of (raw : list esg_row) : list esg_row :=
  drop_duplicates e_ric raw.

(** ['Selected {K} out of {N} instruments by filtering ESG Score >= {esg}\n'
     .format(K=K,N=N,esg=esg_bound)], the bound being the integer 70. *)
Definition selected_message (K : nat) : string :=
  "Selected " ++ pretty K ++ " out of " ++ pretty N_constituents
  ++ " instruments by filtering ESG Score >= " ++ pretty (Qnum esg_bound)
  ++ String "010"%char "".

(** The cell that filters by ESG score: it sets [df_esg_constraint] and
    [K] and prints the count.  It has no branch on [K] and raises
    nothing. *)
Definition select_cell (df_esg : list esg_row) : result (list nace_row * nat * string) :=
  Ok (df_esg_constraint df_esg, K_of df_esg, selected_message (K_of df_esg)).

(** ** Sector distribution of a weighted portfolio *)

(** A row of [df_esg_constraint] once the column [weight] is set. *)
Record weighted_row : Type := WeightedRow {
  row_of : nace_row;
  weight : Q
}.

(** [df_esg_constraint['weight'] = list(mvp['x'])]: one value per row. *)
Definition set_weight (df : list nace_row) (x : list Q) : result (list weighted_row) :=
  if Nat.eqb (List.length x) (List.length df)
  then Ok (zip_with WeightedRow df x)
  else Raise ValueError.

(** [df_nan[df_nan['nace_code']==s]['weight'].values.sum()] *)
Definition group_weight (df_nan : list weighted_row) (s : string) : Q :=
  Qsum (map weight
          (List.filter (fun r => String.eqb (nace_code (row_of r)) s) df_nan)).

(** [def calcWeightsForPieChart(df)]: the weight of each sector. *)
Definition calcWeightsForPieChart (df : list weighted_row) : gmap string Q :=
  let df_nan := map (fun r => WeightedRow (replace_empty_row (row_of r)) (weight r)) df in
  let sections : gset string :=
    list_to_set (List.filter (fun item => (0 <? String.length item)%nat)
                             (map (fun r => nace_code (row_of r)) df_nan)) in
  set_to_map (fun s => (s, group_weight df_nan s)) sections.

(** ['{d} ({c})'.format(d=nace_dict[x],c=str(x))] *)
Definition pie_label (d c : string) : string := d ++ " (" ++ c ++ ")".

(** [def plotPieChartWithNACELabels(nace_dict,piesizes)], up to the drawing:
    the labels and the sizes handed to [plt.pie], in the order of the items
    of [piesizes]. *)
Definition plotPieChartWithNACELabels (nace_dict : gmap string string)
    (piesizes : gmap string Q) : result (list string * list Q) :=
  items ← mapM (fun item : string * Q =>
                  d ← dict_getitem nace_dict (fst item);
                  Ok (pie_label d (fst item), snd item))
               (map_to_list piesizes);
  Ok (map fst items, map snd items).

(** ** The printed report *)

Record report : Type := Report {
  n_selected : nat;
  minw : Q;
  maxw : Q;
  risk : Q;
  ret : Q;
  esg_score : Q
}.

(** [numpy.sum(x > 1e-4)] *)
Definition count_selected (x : list Q) : nat :=
  List.length (List.filter (fun xi => negb (Qle_bool xi 0.0001)) x).

(** [x[numpy.nonzero(x)]] *)
Definition nonzero (x : list Q) : list Q :=
  List.filter (fun xi => negb (Qeq_bool xi 0)) x.

Fixpoint Qmin_from (a : Q) (l : list Q) : Q :=
  match l with
  | [] => a
  | b :: l' => Qmin a (Qmin_from b l')
  end.

Fixpoint Qmax_from (a : Q) (l : list Q) : Q :=
  match l with
  | [] => a
  | b :: l' => Qmax a (Qmax_from b l')
  end.

(** [numpy.min(a)]: an empty array has no minimum. *)
Definition numpy_min (a : list Q) : result Q :=
  match a with
  | [] => Raise ValueError
  | a0 :: a' => Ok (Qmin_from a0 a')
  end.

(** [numpy.max(a)] *)
Definition numpy_max (a : list Q) : result Q :=
  match a with
  | [] => Raise ValueError
  | a0 :: a' => Ok (Qmax_from a0 a')
  end.

(** The arguments of the [print(...format(...))] of a portfolio [x], in the
    order they are evaluated: [n], [minw], [maxw], [risk], [r], [esg]. *)
Definition report_cell (covMatrix : list (list Q)) (returns : DataFrame Q)
    (df : list nace_row) (x : list Q) : result report :=
  mn ← numpy_min (nonzero x);
  mx ← numpy_max x;
  rk ← risk_measure covMatrix x;
  r ← numpy_dot x (frame_sum returns);
  e ← numpy_dot x (map esg df);
  Ok (Report (count_selected x) mn mx rk r e).

(** ** The covariance matrix *)

(** The series of column [i] of a frame. *)
Definition column (d : DataFrame Q) (i : nat) : list Q :=
  map (fun period => nth i period 0%Q) (rows d).

Definition frame_columns (d : DataFrame Q) : list (list Q) :=
  map (column d) (seq 0 (List.length (columns d))).

Definition mean (c : list Q) : Q :=
  (Qsum c / inject_Z (Z.of_nat (List.length c)))%Q.

Definition deviations (c : list Q) : list Q :=
  map (fun v => v - mean c)%Q c.

(** The sample covariance of two series of one length, normalised by the
    number of observations less one. *)
Definition cov_value (ci cj : list Q) : Q :=
  (dot_sum (deviations ci) (deviations cj)
   / (inject_Z (Z.of_nat (List.length ci)) - 1))%Q.

Definition cov_values (d : DataFrame Q) : list (list Q) :=
  map (fun ci => map (cov_value ci) (frame_columns d)) (frame_columns d).

(** The series [sum_i w_i * D_i] of the weighted deviations. *)
Fixpoint lincomb (N : nat) (w : list Q) (Ds : list (list Q)) : list Q :=
  match w, Ds with
  | wi :: w', Di :: Ds' => zip_with Qplus (map (Qmult wi) Di) (lincomb N w' Ds')
  | _, _ => repeat 0%Q N
  end.

(** [returns.cov()]: with fewer than two periods every cell is missing. *)
Definition cov (d : DataFrame Q) : list (list fval) :=
  map (map (fun v => if (List.length (rows d) <=? 1)%nat then NaN else Fin v))
      (cov_values d).

(** ** Checks on concrete inputs *)

Example nace_code_of_ex :
  nace_code_of "Construction of buildings (NACE) (41.10)" = "41".
Proof. reflexivity. Qed.

Example nace_code_of_short : nace_code_of "12.34" = "1" /\ nace_code_of "1234" = "".
Proof. split; reflexivity. Qed.

Example nace_impact_dict_ex :
  dict_getitem nace_impact_dict "41" = Ok 10%Q /\
  dict_getitem nace_impact_dict "42" = Ok 0%Q /\
  dict_getitem nace_impact_dict "nan" = Ok 0%Q /\
  dict_getitem nace_impact_dict "34" = Raise (KeyError "34").
Proof. vm_compute. repeat split. Qed.

Example universe_ex :
  map ric (df_esg_constraint
             [EsgRow "A.N" "A" 80 "Civil engineering (NACE) (42.11)";
              EsgRow "B.N" "B" 90 "Education (NACE) (85.42)";
              EsgRow "C.N" "C" 60 "Construction of buildings (NACE) (41.10)";
              EsgRow "D.N" "D" 95 ""]) = ["A.N"; "B.N"] /\
  K_of [EsgRow "A.N" "A" 80 "Civil engineering (NACE) (42.11)";
        EsgRow "B.N" "B" 90 "Education (NACE) (85.42)";
        EsgRow "C.N" "C" 60 "Construction of buildings (NACE) (41.10)";
        EsgRow "D.N" "D" 95 ""] = 2%nat.
Proof. split; reflexivity. Qed.

(** ** Universe selection *)

Lemma code_nonempty_iff (s : string) :
  (0 <? String.length s)%nat = true <-> s <> "".
Proof.
  destruct s as [|c s]; simpl.
  - split; [discriminate | congruence].
  - split; [discriminate | reflexivity].
Qed.

Lemma replace_empty_id (s : string) : s <> "" -> replace_empty s = s.
Proof.
  intros Hs. unfold replace_empty.
  destruct (String.eqb_spec s ""); [contradiction | reflexivity].
Qed.

Lemma substring_length_le (s : string) (n m : nat) :
  (String.length (substring n m s) <= m)%nat.
Proof.
  revert n m. induction s as [|c s IH]; intros n m.
  - destruct n, m; simpl; lia.
  - destruct n as [|n].
    + destruct m as [|m]; simpl; [lia|]. specialize (IH 0%nat m). lia.
    + simpl. apply IH.
Qed.

Lemma substring_length_exact (s : string) (n m : nat) :
  (n + m <= String.length s)%nat -> String.length (substring n m s) = m.
Proof.
  revert n m. induction s as [|c s IH]; intros n m H.
  - simpl in H. assert (n = 0 /\ m = 0)%nat as [-> ->] by lia. reflexivity.
  - destruct n as [|n].
    + destruct m as [|m]; simpl; [reflexivity|].
      f_equal. apply (IH 0%nat m). simpl in H. lia.
    + simpl. apply IH. simpl in H. lia.
Qed.

(** The extracted code has at most two characters, and exactly two when the
    classification string has six or more. *)
Lemma nace_code_of_length (s : string) :
  (String.length (nace_code_of s) <= 2)%nat /\
  ((6 <= String.length s)%nat ->
   nace_code_of s = substring (String.length s - 6) 2 s /\
   String.length (nace_code_of s) = 2%nat).
Proof.
  unfold nace_code_of, py_slice, slice_bound. simpl.
  set (len := String.length s). split.
  - destruct (Z.ltb_spec (Z.max 0 (-6 + Z.of_nat len)) (Z.max 0 (-4 + Z.of_nat len))).
    + etransitivity; [apply substring_length_le|]. lia.
    + simpl. lia.
  - intros H6.
    destruct (Z.ltb_spec (Z.max 0 (-6 + Z.of_nat len)) (Z.max 0 (-4 + Z.of_nat len))); [|lia].
    replace (Z.to_nat (Z.max 0 (-6 + Z.of_nat len))) with (len - 6)%nat by lia.
    replace (Z.to_nat (Z.max 0 (-4 + Z.of_nat len) - Z.max 0 (-6 + Z.of_nat len))) with 2%nat by lia.
    split; [reflexivity|]. apply substring_length_exact. lia.
Qed.

Lemma concat_nace_rows (df_esg : list esg_row) :
  concat_nace df_esg =
  map (fun r => NaceRow (e_ric r) (e_name r) (e_esg r) (e_nace r)
                        (nace_code_of (e_nace r))) df_esg.
Proof.
  unfold concat_nace, nace_code_list.
  induction df_esg as [|r df IH]; simpl; [reflexivity|]. now rewrite IH.
Qed.

(** C8. An instrument is in the optimisation universe [df_esg_constraint]
    if and only if the slice [-6:-4] of its classification string is
    non-empty and its ESG score is at least the bound, which is 70; the row
    it gets has that slice as its sector code. *)
Theorem universe_membership (df_esg : list esg_row) (r : nace_row) :
  (esg_bound == 70)%Q /\
  (In r (df_esg_constraint df_esg) <->
   exists i, In i df_esg /\
     py_slice (e_nace i) (-6) (-4) <> "" /\
     (esg_bound <= e_esg i)%Q /\
     ric r = e_ric i /\ esg r = e_esg i /\
     name r = replace_empty (e_name i) /\ nace r = replace_empty (e_nace i) /\
     nace_code r = py_slice (e_nace i) (-6) (-4)).
Proof.
  split; [reflexivity|].
  unfold df_esg_constraint, df_esg_nace. rewrite concat_nace_rows.
  rewrite in_map_iff. split.
  - intros (r0 & <- & Hin).
    apply filter_In in Hin as [Hin Hesg].
    apply filter_In in Hin as [Hin Hcode].
    apply in_map_iff in Hin as (i & <- & Hi).
    simpl in *. apply code_nonempty_iff in Hcode.
    apply Qle_bool_iff in Hesg.
    exists i. repeat split; try assumption.
    apply replace_empty_id. exact Hcode.
  - intros (i & Hi & Hcode & Hesg & Hric & Hes & Hname & Hnace & Hc).
    exists (NaceRow (e_ric i) (e_name i) (e_esg i) (e_nace i) (nace_code_of (e_nace i))).
    split.
    + destruct r as [r1 r2 r3 r4 r5]; simpl in *. subst.
      unfold replace_empty_row; simpl. f_equal.
      apply replace_empty_id. exact Hcode.
    + apply filter_In. split.
      * apply filter_In. split.
        -- apply in_map_iff. exists i. split; [reflexivity | assumption].
        -- simpl. apply code_nonempty_iff. exact Hcode.
      * simpl. apply Qle_bool_iff. exact Hesg.
Qed.

(** ** Results of [mapM] and of dict lookups *)

Lemma bind_Ok_inv {A B : Type} (r : result A) (k : A -> result B) (b : B) :
  mbind k r = Ok b -> exists a, r = Ok a /\ k a = Ok b.
Proof.
  destruct r as [a|e]; simpl; [eauto | discriminate].
Qed.

Lemma mapM_Ok_Forall2 {A B : Type} (f : A -> result B) (l : list A) (l' : list B) :
  mapM f l = Ok l' <-> Forall2 (fun a b => f a = Ok b) l l'.
Proof.
  revert l'. induction l as [|a l IH]; intros l'; simpl.
  - split.
    + intros [= <-]. constructor.
    + intros H. inversion H. reflexivity.
  - split.
    + intros H. apply bind_Ok_inv in H as (b & Hb & H).
      apply bind_Ok_inv in H as (bs & Hbs & [= <-]).
      constructor; [exact Hb | apply IH, Hbs].
    + intros H. inversion H as [|? b ? bs Hb Hbs]; subst.
      rewrite Hb. simpl. apply IH in Hbs. rewrite Hbs. reflexivity.
Qed.

Lemma mapM_Raise {A B : Type} (f : A -> result B) (l : list A) (a : A) :
  In a l -> (exists e, f a = Raise e) ->
  exists a' e', In a' l /\ f a' = Raise e' /\ mapM f l = Raise e'.
Proof.
  induction l as [|a0 l IH]; intros Hin Hf; [contradiction|].
  simpl. destruct (f a0) as [b|e] eqn:Ha0; simpl.
  - destruct Hin as [->|Hin].
    + destruct Hf as [e He]. congruence.
    + destruct (IH Hin Hf) as (a' & e' & Hin' & Hf' & Hm).
      exists a', e'. rewrite Hm. simpl. auto.
  - exists a0, e. auto.
Qed.

Lemma nace_dict_has_41 : is_Some (nace_dict !! "41").
Proof. vm_compute. eauto. Qed.

Lemma nace_impact_dict_lookup (code : string) :
  nace_impact_dict !! code =
  if decide (code = "41") then Some 10%Q
  else (fun _ => 0%Q) <$> (nace_dict !! code).
Proof.
  unfold nace_impact_dict. rewrite lookup_insert.
  destruct (decide ("41" = code)) as [<-|Hne].
  - rewrite decide_True by reflexivity. reflexivity.
  - rewrite decide_False by congruence. apply lookup_fmap.
Qed.

Lemma nace_impact_present (code : string) :
  is_Some (nace_dict !! code) ->
  dict_getitem nace_impact_dict code = Ok (if String.eqb code "41" then 10%Q else 0%Q).
Proof.
  intros [label Hl]. unfold dict_getitem. rewrite nace_impact_dict_lookup.
  destruct (String.eqb_spec code "41") as [->|Hne].
  - reflexivity.
  - rewrite decide_False by assumption. rewrite Hl. reflexivity.
Qed.

Lemma nace_impact_absent (code : string) :
  nace_dict !! code = None ->
  dict_getitem nace_impact_dict code = Raise (KeyError code).
Proof.
  intros Hnone. unfold dict_getitem. rewrite nace_impact_dict_lookup.
  destruct (decide (code = "41")) as [->|Hne].
  - destruct nace_dict_has_41 as [l Hl]. congruence.
  - rewrite Hnone. reflexivity.
Qed.

Lemma nace_impact_values (code : string) (w : Q) :
  dict_getitem nace_impact_dict code = Ok w -> w = 10%Q \/ w = 0%Q.
Proof.
  unfold dict_getitem. rewrite nace_impact_dict_lookup.
  destruct (decide (code = "41")).
  - intros [= <-]. now left.
  - destruct (nace_dict !! code); simpl; [|discriminate].
    intros [= <-]. now right.
Qed.

(** C6 (as the code has it). Every sector code that is a key of
    [nace_dict] has an impact weight, 10 for ["41"] and 0 for every other
    key, and deriving the column [nace_impact] succeeds when all codes of
    the frame are keys; a code that is not a key makes the derivation raise
    [KeyError] on an absent code. *)
Theorem nace_impact_column (df : list nace_row) :
  ((forall r, In r df -> is_Some (nace_dict !! nace_code r)) ->
   add_nace_impact df =
   Ok (map (fun r => ImpactRow r (if String.eqb (nace_code r) "41" then 10%Q else 0%Q)) df)) /\
  (forall r, In r df -> nace_dict !! nace_code r = None ->
   exists code, nace_dict !! code = None /\ add_nace_impact df = Raise (KeyError code)).
Proof.
  split.
  - intros Hall. unfold add_nace_impact. apply mapM_Ok_Forall2.
    induction df as [|r df IH]; cbn [map]; constructor.
    + rewrite nace_impact_present by (apply Hall; now left). reflexivity.
    + apply IH. intros r' Hr'. apply Hall. now right.
  - intros r Hin Hnone. unfold add_nace_impact.
    destruct (mapM_Raise
                (fun r => x ← dict_getitem nace_impact_dict (nace_code r); Ok (ImpactRow r x))
                df r Hin) as (r' & e' & Hin' & Hf' & Hm).
    { exists (KeyError (nace_code r)). rewrite nace_impact_absent by assumption. reflexivity. }
    destruct (nace_dict !! nace_code r') as [l|] eqn:Hl.
    + rewrite nace_impact_present in Hf' by eauto. discriminate.
    + rewrite nace_impact_absent in Hf' by assumption. simpl in Hf'.
      injection Hf' as <-. exists (nace_code r'). split; assumption.
Qed.

Lemma nace_impact_column_witness :
  add_nace_impact [NaceRow "A.N" "A" 85 "Civil engineering (NACE) (42.11)" "42"] =
  Ok [ImpactRow (NaceRow "A.N" "A" 85 "Civil engineering (NACE) (42.11)" "42") 0] /\
  exists code, nace_dict !! code = None /\
    add_nace_impact [NaceRow "B.N" "B" 85 "Motor vehicles (NACE) (34.10)" "34"] =
    Raise (KeyError code).
Proof.
  split.
  - apply (proj1 (nace_impact_column
                    [NaceRow "A.N" "A" 85 "Civil engineering (NACE) (42.11)" "42"])).
    intros r [<-|[]]. vm_compute. eauto.
  - apply (proj2 (nace_impact_column
                    [NaceRow "B.N" "B" 85 "Motor vehicles (NACE) (34.10)" "34"])
                 (NaceRow "B.N" "B" 85 "Motor vehicles (NACE) (34.10)" "34")).
    + now left.
    + vm_compute. reflexivity.
Defined.

(** C6, counterexample. An instrument with ESG score 80 whose
    classification carries division 34 is admitted to the universe; its
    code is absent from the impact-weight table, and deriving the impact
    weights raises [KeyError] instead of taking the weight as 0. *)
Lemma absent_sector_raises :
  let df := df_esg_constraint
              [EsgRow "X.N" "X" 80 "Manufacture of motor vehicles (NACE) (34.10)"] in
  map nace_code df = ["34"] /\
  nace_impact_dict !! "34" = None /\
  add_nace_impact df = Raise (KeyError "34") /\
  ~ (exists df', add_nace_impact df = Ok df').
Proof.
  vm_compute. repeat split. intros [df' H]. discriminate.
Qed.

(** ** The impact-ESG score *)

Lemma add_nace_impact_rows (df : list nace_row) (df' : list impact_row) :
  add_nace_impact df = Ok df' ->
  Forall2 (fun r r' => base r' = r /\
                       dict_getitem nace_impact_dict (nace_code r) = Ok (nace_impact r'))
          df df'.
Proof.
  unfold add_nace_impact. intros H. apply mapM_Ok_Forall2 in H.
  induction H as [|r r' df df' Hr _ IH]; constructor; [|exact IH].
  apply bind_Ok_inv in Hr as (w & Hw & [= <-]). simpl. split; [reflexivity | exact Hw].
Qed.

(** C9. The impact-ESG score of an instrument is its sector's impact
    weight times the excess of its ESG score over the bound; ESG 85 in
    sector 41 (weight 10, bound 70) scores 150, and a weight of 0 scores 0
    whatever the ESG score. *)
Theorem impact_esg_score_formula :
  (forall df df', add_nace_impact df = Ok df' ->
     Forall2 (fun r s => exists w,
                  dict_getitem nace_impact_dict (nace_code r) = Ok w /\
                  s = (w * (esg r - esg_bound))%Q)
             df (impact_esg_score df')) /\
  (forall r, esg r = 85%Q -> nace_code r = "41" ->
     exists df', add_nace_impact [r] = Ok df' /\ impact_esg_score df' = [150%Q]) /\
  (forall r s, (nace_impact r == 0)%Q -> In s (impact_esg_score [r]) -> (s == 0)%Q).
Proof.
  split; [|split].
  - intros df df' H. apply add_nace_impact_rows in H.
    induction H as [|r r' df df' [Hb Hw] _ IH]; simpl; constructor; [|exact IH].
    exists (nace_impact r'). rewrite Hb. split; [exact Hw | reflexivity].
  - intros r He Hc. exists [ImpactRow r 10]. split.
    + unfold add_nace_impact. cbn [mapM]. rewrite Hc.
      rewrite nace_impact_present by apply nace_dict_has_41. reflexivity.
    + cbn. rewrite He. reflexivity.
  - intros r s Hz [<-|[]]. rewrite Hz. ring.
Qed.

Lemma impact_esg_score_formula_witness :
  Forall2 (fun r s => exists w,
               dict_getitem nace_impact_dict (nace_code r) = Ok w /\
               s = (w * (esg r - esg_bound))%Q)
          [NaceRow "A.N" "A" 85 "Construction of buildings (NACE) (41.10)" "41"]
          (impact_esg_score
             [ImpactRow (NaceRow "A.N" "A" 85 "Construction of buildings (NACE) (41.10)" "41") 10]) /\
  (exists df',
      add_nace_impact [NaceRow "A.N" "A" 85 "Construction of buildings (NACE) (41.10)" "41"] = Ok df' /\
      impact_esg_score df' = [150%Q]) /\
  (0 * (92 - esg_bound) == 0)%Q.
Proof.
  split; [|split].
  - apply (proj1 impact_esg_score_formula). vm_compute. reflexivity.
  - apply (proj1 (proj2 impact_esg_score_formula)); reflexivity.
  - apply (proj2 (proj2 impact_esg_score_formula)
             (ImpactRow (NaceRow "B.N" "B" 92 "Education (NACE) (85.42)" "85") 0)).
    + reflexivity.
    + now left.
Defined.

Lemma Qsum_nonneg (l : list Q) : Forall (fun q => 0 <= q)%Q l -> (0 <= Qsum l)%Q.
Proof.
  induction 1 as [|q l Hq _ IH]; simpl; [apply Qle_refl | lra].
Qed.

Lemma zip_mult_nonneg (u v : list Q) :
  Forall (fun q => 0 <= q)%Q u -> Forall (fun q => 0 <= q)%Q v ->
  Forall (fun q => 0 <= q)%Q (zip_with Qmult u v).
Proof.
  intros Hu. revert v. induction Hu as [|a u Ha _ IH]; intros v Hv; simpl; [constructor|].
  destruct Hv as [|b v Hb Hv]; constructor.
  - apply Qmult_le_0_compat; assumption.
  - apply IH, Hv.
Qed.

Lemma df_esg_constraint_esg (df_esg : list esg_row) :
  Forall (fun r => esg_bound <= esg r)%Q (df_esg_constraint df_esg).
Proof.
  apply List.Forall_forall. intros r Hr.
  unfold df_esg_constraint in Hr.
  apply in_map_iff in Hr as (r0 & <- & Hr0).
  apply filter_In in Hr0 as [_ Hesg].
  apply Qle_bool_iff in Hesg. exact Hesg.
Qed.

Lemma impact_scores_nonneg (df : list nace_row) (df' : list impact_row) :
  Forall (fun r => esg_bound <= esg r)%Q df ->
  Forall2 (fun r r' => base r' = r /\
                       dict_getitem nace_impact_dict (nace_code r) = Ok (nace_impact r'))
          df df' ->
  Forall (fun s => 0 <= s)%Q (impact_esg_score df').
Proof.
  intros Hesg Hrows. revert Hesg.
  induction Hrows as [|r r' df df' [Hb Hwt] _ IH]; intros Hesg; simpl; constructor.
  - inversion Hesg as [|r0 l0 Hr _]; subst.
    apply Qmult_le_0_compat.
    + apply nace_impact_values in Hwt as [-> | ->]; discriminate.
    + lra.
  - apply IH. inversion Hesg; assumption.
Qed.

(** C10. Every instrument of the filtered universe has an ESG score of at
    least 70; every impact weight of the table is non-negative, so every
    impact-ESG score over the universe is non-negative, and so is the
    impact-ESG score of any portfolio with non-negative weights. *)
Theorem impact_esg_nonnegative (df_esg : list esg_row) (df' : list impact_row)
    (w : list Q) :
  add_nace_impact (df_esg_constraint df_esg) = Ok df' ->
  List.length w = K_of df_esg ->
  Forall (fun wi => 0 <= wi)%Q w ->
  Forall (fun r => 70 <= esg r)%Q (df_esg_constraint df_esg) /\
  (forall code weight, nace_impact_dict !! code = Some weight -> (0 <= weight)%Q) /\
  Forall (fun s => 0 <= s)%Q (impact_esg_score df') /\
  exists v, numpy_dot w (impact_esg_score df') = Ok v /\ (0 <= v)%Q.
Proof.
  intros Hdf Hlen Hw.
  pose proof (df_esg_constraint_esg df_esg) as Hesg.
  pose proof (add_nace_impact_rows _ _ Hdf) as Hrows.
  pose proof (impact_scores_nonneg _ _ Hesg Hrows) as Hscore.
  split; [exact Hesg|]. split; [|split; [exact Hscore|]].
  - intros code weight Hl.
    destruct (nace_impact_values code weight) as [-> | ->]; try discriminate.
    unfold dict_getitem. rewrite Hl. reflexivity.
  - unfold numpy_dot, impact_esg_score. rewrite length_map.
    rewrite <- (Forall2_length _ _ _ Hrows). fold (K_of df_esg). rewrite Hlen.
    rewrite Nat.eqb_refl. eexists. split; [reflexivity|].
    apply Qsum_nonneg, zip_mult_nonneg; assumption.
Qed.

Lemma impact_esg_nonnegative_witness :
  exists v,
    numpy_dot [1 # 4; 3 # 4]%Q
      (impact_esg_score
         [ImpactRow (NaceRow "A.N" "A" 85 "Construction of buildings (NACE) (41.10)" "41") 10;
          ImpactRow (NaceRow "B.N" "B" 90 "Education (NACE) (85.42)" "85") 0]) = Ok v /\
    (0 <= v)%Q.
Proof.
  apply (impact_esg_nonnegative
           [EsgRow "A.N" "A" 85 "Construction of buildings (NACE) (41.10)";
            EsgRow "B.N" "B" 90 "Education (NACE) (85.42)";
            EsgRow "C.N" "C" 60 "Civil engineering (NACE) (42.11)"]
           _ [1 # 4; 3 # 4]%Q).
  - vm_compute. reflexivity.
  - reflexivity.
  - repeat constructor; discriminate.
Defined.

(** ** The return series *)

Lemma pct_cell_nonneg (cur prev : Q) :
  (0 <= cur)%Q -> no_ninf (pct_cell cur prev).
Proof.
  intros Hcur. unfold no_ninf, pct_cell, fdiv.
  destruct (Qeq_bool prev 0).
  - destruct (Qeq_bool cur 0); [discriminate|].
    apply Qle_bool_iff in Hcur. rewrite Hcur. discriminate.
  - discriminate.
Qed.

Lemma pct_row_nonneg (cur prev : list Q) :
  Forall (fun p => 0 <= p)%Q cur -> Forall no_ninf (zip_with pct_cell cur prev).
Proof.
  intros Hcur. revert prev.
  induction Hcur as [|c cur Hc _ IH]; intros prev; simpl; [constructor|].
  destruct prev as [|p prev]; constructor.
  - apply pct_cell_nonneg, Hc.
  - apply IH.
Qed.

Lemma pct_rows_nonneg (prev : list Q) (rest : list (list Q)) :
  Forall (Forall (fun p => 0 <= p)%Q) rest ->
  Forall (Forall no_ninf) (pct_rows prev rest).
Proof.
  intros Hrest. revert prev.
  induction Hrest as [|cur rest Hcur _ IH]; intros prev; simpl; constructor.
  - apply pct_row_nonneg, Hcur.
  - apply IH.
Qed.

Lemma pct_change_nonneg (d : DataFrame Q) :
  Forall (Forall (fun p => 0 <= p)%Q) (rows d) ->
  Forall (Forall no_ninf) (rows (pct_change d)).
Proof.
  unfold pct_change. simpl. intros Hd.
  destruct Hd as [|first rest _ Hrest]; constructor.
  - clear. induction first; simpl; constructor; [discriminate | assumption].
  - apply pct_rows_nonneg, Hrest.
Qed.

(** On a row without negative infinity, replacing [inf] by [NaN] and asking
    for a missing cell is asking for a cell that is not finite. *)
Lemma replace_then_isna (row : list fval) :
  Forall no_ninf row ->
  negb (existsb is_nan (map replace_inf_cell row)) = forallb is_fin row.
Proof.
  induction 1 as [|v row Hv _ IH]; simpl; [reflexivity|].
  rewrite negb_orb, IH. destruct v; try reflexivity. now contradiction Hv.
Qed.

Lemma replace_inf_finite (row : list fval) :
  forallb is_fin row = true -> map replace_inf_cell row = row.
Proof.
  induction row as [|v row IH]; simpl; [reflexivity|].
  intros H. apply andb_true_iff in H as [Hv Hrow].
  rewrite IH by assumption. destruct v; try discriminate. reflexivity.
Qed.

Lemma dropna_replace_rows (l : list (list fval)) :
  Forall (Forall no_ninf) l ->
  List.filter (fun row => negb (existsb is_nan row)) (map (map replace_inf_cell) l) =
  List.filter (forallb is_fin) l.
Proof.
  induction 1 as [|row l Hrow _ IH]; simpl; [reflexivity|].
  rewrite replace_then_isna by assumption.
  destruct (forallb is_fin row) eqn:Hfin.
  - rewrite IH, replace_inf_finite by assumption. reflexivity.
  - exact IH.
Qed.

(** C7. On a price series, whose prices are not negative, the infinite
    values of the period-over-period return, which come from the division
    by a zero price, are all [inf]; [.replace(numpy.inf, numpy.nan)] turns
    each of them into the missing marker, so none is left after it;
    [.dropna()] then drops every period that had one, [returns] being the
    percentage change less the periods with a cell that is not finite; so
    every cell of [returns], from which the covariance is computed, is
    finite. *)
Theorem returns_finite (timeseries_data : DataFrame Q) :
  Forall (Forall (fun p => 0 <= p)%Q) (rows timeseries_data) ->
  Forall (Forall (fun v => v <> NInf)) (rows (pct_change timeseries_data)) /\
  Forall (Forall (fun v => is_inf v = false))
         (rows (replace_inf (pct_change timeseries_data))) /\
  rows (returns_of timeseries_data) =
    List.filter (forallb is_fin) (rows (pct_change timeseries_data)) /\
  Forall (Forall (fun v => is_fin v = true /\ is_inf v = false))
         (rows (returns_of timeseries_data)).
Proof.
  intros Hpos. pose proof (pct_change_nonneg _ Hpos) as Hn.
  assert (Hrows : rows (returns_of timeseries_data) =
                  List.filter (forallb is_fin) (rows (pct_change timeseries_data))).
  { unfold returns_of, dropna, replace_inf. cbn [rows].
    apply dropna_replace_rows, Hn. }
  split; [exact Hn|]. split; [|split; [exact Hrows|]].
  { unfold replace_inf. cbn [rows]. apply List.Forall_forall. intros row Hrow.
    apply in_map_iff in Hrow as (row0 & <- & Hrow0).
    pose proof (proj1 (List.Forall_forall _ _) Hn row0 Hrow0) as Hrow0n.
    apply List.Forall_forall. intros v Hv.
    apply in_map_iff in Hv as (v0 & <- & Hv0).
    pose proof (proj1 (List.Forall_forall _ _) Hrow0n v0 Hv0) as Hv0n.
    destruct v0; try reflexivity. now contradiction Hv0n. }
  rewrite Hrows. apply List.Forall_forall. intros row Hrow.
  apply filter_In in Hrow as [_ Hfin].
  apply List.Forall_forall. intros v Hv.
  rewrite forallb_forall in Hfin. specialize (Hfin v Hv).
  destruct v; try discriminate. split; reflexivity.
Qed.

Lemma returns_finite_witness :
  rows (returns_of (Frame ["A.N"; "B.N"] [[10; 0]; [11; 5]; [0; 5]; [3; 6]]%Q)) =
  List.filter (forallb is_fin)
    (rows (pct_change (Frame ["A.N"; "B.N"] [[10; 0]; [11; 5]; [0; 5]; [3; 6]]%Q))).
Proof.
  apply (returns_finite (Frame ["A.N"; "B.N"] [[10; 0]; [11; 5]; [0; 5]; [3; 6]]%Q)).
  cbn [rows]. repeat constructor; discriminate.
Defined.

Example returns_of_ex :
  rows (pct_change (Frame ["A.N"; "B.N"] [[10; 0]; [11; 5]; [0; 5]; [3; 6]]%Q)) =
    [[NaN; NaN]; [Fin (11 / 10 - 1); PInf]; [Fin (0 / 11 - 1); Fin (5 / 5 - 1)];
     [PInf; Fin (6 / 5 - 1)]]%Q /\
  rows (returns_of (Frame ["A.N"; "B.N"] [[10; 0]; [11; 5]; [0; 5]; [3; 6]]%Q)) =
    [[Fin (0 / 11 - 1); Fin (5 / 5 - 1)]]%Q.
Proof. split; reflexivity. Qed.

(** The hypothesis on the prices is used.  A zero followed by a negative
    value, which no closing price is, gives [-inf], which
    [.replace(numpy.inf, numpy.nan)] leaves alone. *)
Lemma negative_infinity_survives :
  let prices := Frame ["X.N"] [[0]; [-1]]%Q in
  rows (pct_change prices) = [[NaN]; [NInf]] /\
  rows (returns_of prices) = [[NInf]] /\
  ~ Forall (Forall (fun v => is_inf v = false)) (rows (returns_of prices)).
Proof.
  cbv zeta. repeat split.
  intros H. inversion H as [|? ? Hrow _]. inversion Hrow as [|? ? Hv _]. discriminate.
Qed.

(** ** The objective, by index *)

(** Shapes of concrete inputs. *)
Ltac shapes := unfold frame_shaped; cbn; repeat split; repeat constructor.

Lemma Qsum_map_ext {A : Type} (f g : A -> Q) (l : list A) :
  (forall a, In a l -> f a == g a)%Q -> (Qsum (map f l) == Qsum (map g l))%Q.
Proof.
  induction l as [|a l IH]; intros H; simpl; [reflexivity|].
  rewrite (H a) by now left. rewrite IH; [reflexivity|].
  intros a' Ha'. apply H. now right.
Qed.

Lemma Qsum_map_scale {A : Type} (c : Q) (f : A -> Q) (l : list A) :
  (Qsum (map (fun a => c * f a) l) == c * Qsum (map f l))%Q.
Proof.
  induction l as [|a l IH]; simpl; [ring|]. rewrite IH. ring.
Qed.

Lemma sum_upto_ext (n : nat) (f g : nat -> Q) :
  (forall i, (i < n)%nat -> f i == g i)%Q -> (sum_upto n f == sum_upto n g)%Q.
Proof.
  intros H. unfold sum_upto. apply Qsum_map_ext.
  intros i Hi. apply in_seq in Hi. apply H. lia.
Qed.

Lemma sum_upto_S (n : nat) (f : nat -> Q) :
  sum_upto (S n) f = (f 0%nat + sum_upto n (fun i => f (S i)))%Q.
Proof.
  unfold sum_upto. cbn [seq map Qsum fold_right].
  rewrite <- seq_shift, map_map. reflexivity.
Qed.

(** The inner product of two vectors is the sum over the indices. *)
Lemma dot_sum_index (u v : list Q) :
  dot_sum u v = spec_dot u (fun i => nth i v 0%Q) \/ (List.length v < List.length u)%nat.
Proof.
  revert v. induction u as [|a u IH]; intros v.
  - left. reflexivity.
  - destruct v as [|b v]; [right; simpl; lia|].
    destruct (IH v) as [Heq|Hlt]; [left | right; simpl; lia].
    unfold spec_dot. cbn [List.length]. rewrite sum_upto_S.
    unfold dot_sum in *. cbn [zip_with Qsum fold_right nth]. f_equal. exact Heq.
Qed.

Lemma dot_sum_spec (u v : list Q) :
  List.length u = List.length v ->
  dot_sum u v = spec_dot u (fun i => nth i v 0%Q).
Proof.
  intros Hlen. destruct (dot_sum_index u v) as [H|H]; [exact H | lia].
Qed.

Lemma numpy_dot_Ok (u v : list Q) :
  List.length u = List.length v -> numpy_dot u v = Ok (dot_sum u v).
Proof.
  intros Hlen. unfold numpy_dot. rewrite Hlen, Nat.eqb_refl. reflexivity.
Qed.

Lemma numpy_dot_mv_Ok (M : list (list Q)) (v : list Q) :
  Forall (fun row => List.length row = List.length v) M ->
  numpy_dot_mv M v = Ok (map (fun row => dot_sum row v) M).
Proof.
  intros HM. unfold numpy_dot_mv. apply mapM_Ok_Forall2.
  induction HM as [|row M Hrow _ IH]; simpl; constructor; [|exact IH].
  apply numpy_dot_Ok, Hrow.
Qed.

Lemma risk_measure_Ok (C : list (list Q)) (w : list Q) :
  List.length C = List.length w ->
  Forall (fun row => List.length row = List.length w) C ->
  risk_measure C w = Ok (risk_value C w).
Proof.
  intros HC Hrows. unfold risk_measure.
  rewrite numpy_dot_mv_Ok by assumption. simpl.
  apply numpy_dot_Ok. rewrite length_map. symmetry. exact HC.
Qed.

Lemma risk_value_spec (C : list (list Q)) (w : list Q) :
  List.length C = List.length w ->
  Forall (fun row => List.length row = List.length w) C ->
  (risk_value C w == spec_risk C w)%Q.
Proof.
  intros HC Hrows. unfold risk_value, spec_risk.
  rewrite dot_sum_spec by (rewrite length_map; symmetry; exact HC).
  unfold spec_dot. apply sum_upto_ext. intros i Hi.
  assert (Hnth : nth i (map (fun row => dot_sum row w) C) 0%Q = dot_sum (nth i C []) w)
    by exact (map_nth (fun row => dot_sum row w) C [] i).
  rewrite Hnth.
  assert (Hrow : List.length (nth i C []) = List.length w).
  { apply (proj1 (List.Forall_nth _ C) Hrows). lia. }
  rewrite dot_sum_spec by exact Hrow. unfold spec_dot. rewrite Hrow.
  unfold sum_upto. rewrite <- Qsum_map_scale.
  apply Qsum_map_ext. intros j _. unfold entry. ring.
Qed.

Lemma nth_zeros {A : Type} (cols : list A) (i : nat) :
  nth i (map (fun _ => 0%Q) cols) 0%Q = 0%Q.
Proof.
  revert i. induction cols as [|c cols IH]; intros [|i]; simpl; auto.
Qed.

Lemma nth_zip_plus (u v : list Q) (i : nat) :
  List.length u = List.length v ->
  (nth i (zip_with Qplus u v) 0 == nth i u 0 + nth i v 0)%Q.
Proof.
  revert v i. induction u as [|a u IH]; intros [|b v] i Hlen; try discriminate.
  - destruct i; simpl; ring.
  - destruct i as [|i]; simpl; [reflexivity|]. apply IH. simpl in Hlen. lia.
Qed.

Lemma length_zip_plus (u v : list Q) :
  List.length u = List.length v -> List.length (zip_with Qplus u v) = List.length v.
Proof.
  revert v. induction u as [|a u IH]; intros [|b v] Hlen; try discriminate; simpl.
  - reflexivity.
  - f_equal. apply IH. simpl in Hlen. lia.
Qed.

Lemma frame_sum_length (d : DataFrame Q) :
  Forall (fun period => List.length period = List.length (columns d)) (rows d) ->
  List.length (frame_sum d) = List.length (columns d).
Proof.
  unfold frame_sum. induction 1 as [|row l Hrow _ IH]; cbn [fold_right].
  - apply length_map.
  - rewrite length_zip_plus; [exact IH | congruence].
Qed.

(** [returns.sum()] holds, per instrument, the sum of its period returns. *)
Lemma frame_sum_spec (d : DataFrame Q) (i : nat) :
  Forall (fun period => List.length period = List.length (columns d)) (rows d) ->
  (nth i (frame_sum d) 0 == spec_total_return d i)%Q.
Proof.
  intros Hrows. pose proof (frame_sum_length d) as Hlen.
  unfold spec_total_return, frame_sum in *.
  induction Hrows as [|row l Hrow Hl IH]; cbn [fold_right map Qsum].
  - rewrite nth_zeros. reflexivity.
  - rewrite nth_zip_plus.
    + rewrite IH; [reflexivity|]. intros _. apply (frame_sum_length (Frame (columns d) l)), Hl.
    + rewrite Hrow. symmetry. apply (frame_sum_length (Frame (columns d) l)), Hl.
Qed.

(** The value of a blended objective on inputs of matching shapes. *)
Lemma blended_objective_Ok (returnCoef scoreCoef : Q) (C : list (list Q))
    (returns : DataFrame Q) (score w : list Q) :
  frame_shaped (List.length w) C returns score ->
  blended_objective returnCoef scoreCoef C returns score w =
  Ok (risk_value C w - returnCoef * dot_sum w (frame_sum returns)
      - scoreCoef * dot_sum w score)%Q.
Proof.
  intros (HC & Hrows & Hcols & Hper & Hscore). unfold blended_objective.
  rewrite risk_measure_Ok by assumption. cbn [mbind result_bind].
  rewrite (numpy_dot_Ok w (frame_sum returns)).
  2:{ rewrite frame_sum_length; [congruence|]. rewrite Hcols. exact Hper. }
  cbn [mbind result_bind]. rewrite (numpy_dot_Ok w score) by congruence. reflexivity.
Qed.

Lemma blended_value_spec (returnCoef scoreCoef : Q) (C : list (list Q))
    (returns : DataFrame Q) (score w : list Q) :
  frame_shaped (List.length w) C returns score ->
  (risk_value C w - returnCoef * dot_sum w (frame_sum returns)
   - scoreCoef * dot_sum w score ==
   spec_objective returnCoef scoreCoef C returns score w)%Q.
Proof.
  intros (HC & Hrows & Hcols & Hper & Hscore). unfold spec_objective.
  rewrite risk_value_spec by assumption.
  rewrite (dot_sum_spec w score) by congruence.
  rewrite (dot_sum_spec w (frame_sum returns)).
  2:{ rewrite frame_sum_length; [congruence|]. rewrite Hcols. exact Hper. }
  assert (Htot : (spec_dot w (fun i => nth i (frame_sum returns) 0) ==
                  spec_dot w (spec_total_return returns))%Q).
  { unfold spec_dot. apply sum_upto_ext. intros i _.
    rewrite frame_sum_spec; [reflexivity|]. rewrite Hcols. exact Hper. }
  rewrite Htot. reflexivity.
Qed.

(** C2. On inputs of matching shapes the composed objective evaluates to
    [w^T C w - returnCoef (w . totalReturn) - scoreCoef (w . score)], with
    [totalReturn] the per-instrument sum of the period returns; the two
    blended objectives of the notebook are its instances at the coefficients
    (0.0002, 0.00002) and (0.0002, 0.000004); with both coefficients zero it
    is the pure risk measure [w^T C w], the minimum-variance objective. *)
Theorem objective_formula (returnCoef scoreCoef : Q) (C : list (list Q))
    (returns : DataFrame Q) (score w : list Q) :
  frame_shaped (List.length w) C returns score ->
  (exists v, blended_objective returnCoef scoreCoef C returns score w = Ok v /\
             (v == spec_objective returnCoef scoreCoef C returns score w)%Q) /\
  (forall df, esg_ret_objective C returns df w =
              blended_objective (2 # 10000) (2 # 100000) C returns (map esg df) w) /\
  (forall df, impact_esg_objective C returns df w =
              blended_objective (2 # 10000) (4 # 1000000) C returns (impact_esg_score df) w) /\
  (exists v v0, mvp_objective C w = Ok v /\
                blended_objective 0 0 C returns score w = Ok v0 /\
                (v0 == v)%Q /\ (v == spec_risk C w)%Q /\
                (v == spec_objective 0 0 C returns score w)%Q).
Proof.
  intros Hshape. split; [|split; [|split]].
  - eexists. split; [apply blended_objective_Ok, Hshape|].
    apply blended_value_spec, Hshape.
  - reflexivity.
  - reflexivity.
  - pose proof (blended_value_spec 0 0 C returns score w Hshape) as Hspec.
    destruct Hshape as (HC & Hrows & Hrest).
    exists (risk_value C w). eexists. split; [|split; [|split; [|split]]].
    + apply risk_measure_Ok; assumption.
    + apply blended_objective_Ok. repeat split; tauto.
    + ring.
    + apply risk_value_spec; assumption.
    + rewrite <- Hspec. ring.
Qed.

Lemma objective_formula_witness :
  exists v,
    blended_objective 0.0002 0.00002 [[1; 0]; [0; 1]]%Q
      (Frame ["A.N"; "B.N"] [[1 # 100; 2 # 100]; [3 # 100; -1 # 100]]%Q)
      [80; 90]%Q [1 # 2; 1 # 2]%Q = Ok v /\
    (v == spec_objective 0.0002 0.00002 [[1; 0]; [0; 1]]
            (Frame ["A.N"; "B.N"] [[1 # 100; 2 # 100]; [3 # 100; -1 # 100]])
            [80; 90] [1 # 2; 1 # 2])%Q.
Proof.
  apply (objective_formula 0.0002 0.00002 [[1; 0]; [0; 1]]%Q
           (Frame ["A.N"; "B.N"] [[1 # 100; 2 # 100]; [3 # 100; -1 # 100]]%Q)
           [80; 90]%Q [1 # 2; 1 # 2]%Q).
  shapes.
Defined.

Example objective_ex :
  exists v,
    esg_ret_objective [[1; 0]; [0; 1]]%Q
      (Frame ["A.N"; "B.N"] [[1 # 100; 2 # 100]; [3 # 100; -1 # 100]]%Q)
      [NaceRow "A.N" "A" 80 "" "41"; NaceRow "B.N" "B" 90 "" "42"]
      [1 # 2; 1 # 2]%Q = Ok v /\
    (v == (1 # 2) - 0.0002 * (5 # 200) - 0.00002 * 85)%Q.
Proof. eexists. split; [vm_compute; reflexivity | reflexivity]. Qed.

Example numpy_dot_shapes : numpy_dot [1; 2]%Q [1; 2; 3]%Q = Raise ValueError.
Proof. reflexivity. Qed.

(** ** The trade-off in the score coefficient *)

Section ScoreCoefficient.

Variable returnCoef : Q.
Variable C : list (list Q).
Variable returns : DataFrame Q.
Variable score : list Q.
Variable K : nat.
Hypothesis shaped : frame_shaped K C returns score.

Local Abbreviation objective scoreCoef :=
  (blended_objective returnCoef scoreCoef C returns score).

Lemma feasible_objective (scoreCoef : Q) (w : list Q) :
  feasible K w ->
  objective scoreCoef w =
  Ok (risk_value C w - returnCoef * dot_sum w (frame_sum returns)
      - scoreCoef * dot_sum w score)%Q.
Proof.
  intros (Hlen & _). apply blended_objective_Ok. rewrite Hlen. exact shaped.
Qed.

Lemma feasible_score_metric (w : list Q) :
  feasible K w -> score_metric score w = Ok (dot_sum w score).
Proof.
  intros (Hlen & _). apply numpy_dot_Ok.
  destruct shaped as (_ & _ & _ & _ & Hscore). congruence.
Qed.

(** Two optima at two coefficients: the larger coefficient has the
    larger score. *)
Lemma minimizers_ordered (c1 c2 : Q) (w1 w2 : list Q) :
  (c1 < c2)%Q ->
  is_minimizer (objective c1) K w1 ->
  is_minimizer (objective c2) K w2 ->
  (dot_sum w1 score <= dot_sum w2 score)%Q.
Proof.
  intros Hc (Hf1 & v1 & Hv1 & Hmin1) (Hf2 & v2 & Hv2 & Hmin2).
  pose proof (Hmin1 w2 _ Hf2 (feasible_objective c1 w2 Hf2)) as H12.
  pose proof (Hmin2 w1 _ Hf1 (feasible_objective c2 w1 Hf1)) as H21.
  rewrite feasible_objective in Hv1, Hv2 by assumption.
  injection Hv1 as <-. injection Hv2 as <-.
  set (s1 := dot_sum w1 score) in *. set (s2 := dot_sum w2 score) in *.
  set (a1 := (risk_value C w1 - returnCoef * dot_sum w1 (frame_sum returns))%Q) in *.
  set (a2 := (risk_value C w2 - returnCoef * dot_sum w2 (frame_sum returns))%Q) in *.
  assert (Hprod : ((c2 - c1) * (s1 - s2) <= 0)%Q) by lra.
  destruct (Qlt_le_dec s2 s1) as [Hlt|Hle]; [|exact Hle].
  assert (0 < (c2 - c1) * (s1 - s2))%Q by (apply Qmult_lt_0_compat; lra).
  lra.
Qed.

Lemma scores_sorted (runs : list (Q * list Q)) :
  StronglySorted Qlt (map fst runs) ->
  Forall (fun run => is_minimizer (objective (fst run)) K (snd run)) runs ->
  StronglySorted Qle (map (fun run => dot_sum (snd run) score) runs).
Proof.
  induction runs as [|[c w] runs IH]; intros Hsorted Hmin; simpl; [constructor|].
  inversion Hsorted as [|? ? Htail Hhead]; subst.
  inversion Hmin as [|? ? Hw Hrest]; subst. simpl in Hw.
  constructor; [apply IH; assumption|].
  clear IH Htail Hsorted Hmin.
  induction Hrest as [|[c' w'] runs Hw' _ IH]; simpl; constructor.
  - inversion Hhead; subst. simpl in *. eapply minimizers_ordered; eassumption.
  - apply IH. inversion Hhead; assumption.
Qed.

Lemma scores_computed (runs : list (Q * list Q)) :
  Forall (fun run => is_minimizer (objective (fst run)) K (snd run)) runs ->
  mapM (fun run => score_metric score (snd run)) runs =
  Ok (map (fun run => dot_sum (snd run) score) runs).
Proof.
  intros Hmin. apply mapM_Ok_Forall2.
  induction Hmin as [|run runs [Hf _] _ IH]; simpl; constructor; [|exact IH].
  apply feasible_score_metric, Hf.
Qed.

End ScoreCoefficient.

(** Exact optima.  With the covariance matrix, the return frame, the score
    vector and the return coefficient fixed, along a strictly increasing
    sequence of score coefficients, weight vectors that each minimise
    their objective over the feasible region have score metrics
    [w . score] that are computed without error and never decrease.  This
    is a property of the objective; what the solver returns need not be
    such an optimum. *)
Theorem score_monotone (returnCoef : Q) (C : list (list Q)) (returns : DataFrame Q)
    (score : list Q) (K : nat) (runs : list (Q * list Q)) :
  frame_shaped K C returns score ->
  Sorted Qlt (map fst runs) ->
  Forall (fun run =>
            is_minimizer (blended_objective returnCoef (fst run) C returns score)
                         K (snd run)) runs ->
  exists scores,
    mapM (fun run => score_metric score (snd run)) runs = Ok scores /\
    StronglySorted Qle scores.
Proof.
  intros Hshape Hsorted Hmin.
  exists (map (fun run => dot_sum (snd run) score) runs). split.
  - eapply scores_computed; eassumption.
  - eapply scores_sorted; try eassumption.
    apply Sorted_StronglySorted; [|exact Hsorted].
    intros a b c. apply Qlt_trans.
Qed.

Lemma Qsq_nonneg (q : Q) : (0 <= q * q)%Q.
Proof.
  destruct (Qlt_le_dec q 0) as [Hneg|Hpos].
  - assert (E : (q * q == (- q) * (- q))%Q) by ring. rewrite E.
    apply Qmult_le_0_compat; lra.
  - apply Qmult_le_0_compat; assumption.
Qed.

(** Two instruments with unit variances, equal returns and scores 1 and 2:
    the optimum moves from (1/2, 1/2) at coefficient 0 to (1/4, 3/4) at
    coefficient 1. *)
Lemma two_asset_minimizer (c a0 b0 : Q) :
  (a0 + b0 == 1)%Q -> (0 <= a0 <= 1)%Q -> (0 <= b0 <= 1)%Q ->
  (a0 - b0 + c * (1 # 2) == 0)%Q ->
  is_minimizer
    (blended_objective 0.0002 c [[1; 0]; [0; 1]]%Q
       (Frame ["A.N"; "B.N"] [[1 # 100; 1 # 100]]%Q) [1; 2]%Q)
    2 [a0; b0].
Proof.
  intros Hsum Ha Hb Hopt.
  assert (Hshape : frame_shaped 2 [[1; 0]; [0; 1]]%Q
                     (Frame ["A.N"; "B.N"] [[1 # 100; 1 # 100]]%Q) [1; 2]%Q).
  { shapes. }
  split.
  - split; [reflexivity|]. split.
    + repeat constructor; tauto.
    + unfold sum_to_one, Qsum. cbn [fold_right]. lra.
  - eexists. split; [apply blended_objective_Ok; exact Hshape|].
    intros w' v' (Hlen & _ & Hone) Hv'.
    destruct w' as [|a [|b [|? ?]]]; try discriminate.
    rewrite blended_objective_Ok in Hv' by exact Hshape.
    injection Hv' as <-.
    unfold sum_to_one in Hone.
    unfold risk_value, dot_sum, frame_sum, Qsum in *.
    cbn [zip_with map fold_right rows columns] in *.
    assert (Hsq : (0 <= (a - b + c * (1 # 2)) * (a - b + c * (1 # 2)))%Q) by apply Qsq_nonneg.
    assert (Hone2 : ((a + b - 1) * (a + b + 1) == 0)%Q).
    { assert (Hz : (a + b - 1 == 0)%Q) by lra. rewrite Hz. ring. }
    assert (Hone0 : ((a0 + b0 - 1) * (a0 + b0 + 1) == 0)%Q).
    { assert (Hz : (a0 + b0 - 1 == 0)%Q) by lra. rewrite Hz. ring. }
    assert (Hopt2 : ((a0 - b0 + c * (1 # 2)) * (a0 - b0 + c * (1 # 2)) == 0)%Q).
    { rewrite Hopt. ring. }
    assert (Hc : (c * (a + b - 1) == 0)%Q).
    { assert (Hz : (a + b - 1 == 0)%Q) by lra. rewrite Hz. ring. }
    assert (Hc0 : (c * (a0 + b0 - 1) == 0)%Q).
    { assert (Hz : (a0 + b0 - 1 == 0)%Q) by lra. rewrite Hz. ring. }
    nra.
Qed.

Lemma score_monotone_witness :
  exists scores,
    mapM (fun run => score_metric [1; 2]%Q (snd run))
         [(0, [1 # 2; 1 # 2]); (1, [1 # 4; 3 # 4])]%Q = Ok scores /\
    StronglySorted Qle scores.
Proof.
  apply (score_monotone 0.0002 [[1; 0]; [0; 1]]%Q
           (Frame ["A.N"; "B.N"] [[1 # 100; 1 # 100]]%Q) [1; 2]%Q 2
           [(0, [1 # 2; 1 # 2]); (1, [1 # 4; 3 # 4])]%Q).
  - shapes.
  - repeat constructor.
  - constructor; [|constructor; [|constructor]].
    + apply two_asset_minimizer; [reflexivity | split; discriminate ..| reflexivity].
    + apply two_asset_minimizer; [reflexivity | split; discriminate ..| reflexivity].
Defined.

Example score_monotone_ex :
  mapM (fun run => score_metric [1; 2]%Q (snd run))
       [(0, [1 # 2; 1 # 2]); (1, [1 # 4; 3 # 4])]%Q =
  Ok [(1 # 2) * 1 + ((1 # 2) * 2 + 0); (1 # 4) * 1 + ((3 # 4) * 2 + 0)]%Q.
Proof. reflexivity. Qed.

(** ** The optimisation cells *)

Lemma minimize_cell_zero (objective : list Q -> result Q) :
  minimize_cell objective 0 = Throw ZeroDivisionError.
Proof. reflexivity. Qed.

Lemma minimize_cell_pos (objective : list Q -> result Q) (K : nat) :
  (0 < K)%nat ->
  minimize_cell objective K =
  Minimize (MinimizeCall objective (repeat (1 / inject_Z (Z.of_nat K))%Q K)
                         (bounds_of K) sum_to_one) Ret.
Proof.
  destruct K as [|K]; [lia|]. reflexivity.
Qed.

Lemma run_minimize_cell (solver : minimize_call -> result OptimizeResult)
    (call : minimize_call) :
  run solver (Minimize call Ret) = (solver call, [call]).
Proof.
  simpl. destruct (solver call); reflexivity.
Qed.

(** C5 (as the code has it). When the filters leave no instrument
    ([K = 0]) no cell checks for it: the selection cell returns normally
    and prints the count, and each of the three optimisation cells then
    raises [ZeroDivisionError], the error of [1 / K] in the initial guess,
    while the arguments of the solver call are evaluated: whatever the
    solver is, it is not called. *)
Theorem empty_universe_fails (df_esg : list esg_row) (covMatrix : list (list Q))
    (returns : DataFrame Q) (df_impact : list impact_row)
    (solver : minimize_call -> result OptimizeResult) :
  df_esg_constraint df_esg = [] ->
  K_of df_esg = 0%nat /\
  select_cell df_esg = Ok ([], 0%nat, selected_message 0) /\
  py_truediv 1 (K_of df_esg) = Raise ZeroDivisionError /\
  mvp covMatrix (K_of df_esg) = Throw ZeroDivisionError /\
  esg_ret_mvp covMatrix returns (df_esg_constraint df_esg) (K_of df_esg) =
    Throw ZeroDivisionError /\
  impact_esg_mvp covMatrix returns df_impact (K_of df_esg) = Throw ZeroDivisionError /\
  run solver (mvp covMatrix (K_of df_esg)) = (Raise ZeroDivisionError, []) /\
  run solver (esg_ret_mvp covMatrix returns (df_esg_constraint df_esg) (K_of df_esg)) =
    (Raise ZeroDivisionError, []) /\
  run solver (impact_esg_mvp covMatrix returns df_impact (K_of df_esg)) =
    (Raise ZeroDivisionError, []).
Proof.
  intros Hempty. unfold select_cell, K_of, mvp, esg_ret_mvp, impact_esg_mvp.
  rewrite Hempty. cbn [List.length]. rewrite !minimize_cell_zero.
  repeat split.
Qed.

Lemma empty_universe_fails_witness :
  run (fun call => Ok (OptResult (x0 call) true))
      (mvp [] (K_of [EsgRow "A.N" "A" 60 "Construction of buildings (NACE) (41.10)";
                     EsgRow "B.N" "B" 90 ""])) =
  (Raise ZeroDivisionError, []).
Proof.
  apply (empty_universe_fails
           [EsgRow "A.N" "A" 60 "Construction of buildings (NACE) (41.10)";
            EsgRow "B.N" "B" 90 ""]
           [] (Frame [] []) [] (fun call => Ok (OptResult (x0 call) true))).
  reflexivity.
Defined.

(** C5, counterexample. A universe that the filters empty is not reported
    as an error: the cell that finds [K = 0] returns normally and prints
    an ordinary count.  The failure comes later and is the one of the
    division [1 / K]: the same [ZeroDivisionError], without a message of
    the notebook, for every objective and every data. *)
Lemma empty_universe_not_reported :
  let df_esg := [EsgRow "A.N" "A" 60 "Construction of buildings (NACE) (41.10)";
                 EsgRow "B.N" "B" 90 ""] in
  select_cell df_esg =
    Ok ([], 0%nat, "Selected 0 out of 350 instruments by filtering ESG Score >= 70"
                   ++ String "010"%char "") /\
  ~ (exists e, select_cell df_esg = Raise e) /\
  py_truediv 1 (K_of df_esg) = Raise ZeroDivisionError /\
  (forall objective, minimize_cell objective (K_of df_esg) = Throw ZeroDivisionError) /\
  (forall e, mvp [] (K_of df_esg) = Throw e -> e = ZeroDivisionError).
Proof.
  cbv zeta. split; [vm_compute; reflexivity|]. split; [|split; [|split]].
  - intros [e He]. discriminate.
  - reflexivity.
  - intros objective. reflexivity.
  - intros e [= <-]. reflexivity.
Qed.

Lemma feasible_single (w : list Q) :
  feasible 1 w <-> exists q, w = [q] /\ (q == 1)%Q.
Proof.
  unfold feasible, sum_to_one. split.
  - intros (Hlen & _ & Hsum).
    destruct w as [|q [|? ?]]; try discriminate.
    exists q. split; [reflexivity|]. simpl in Hsum. lra.
  - intros (q & -> & Hq). split; [reflexivity|]. split.
    + repeat constructor; lra.
    + simpl. lra.
Qed.

(** C4 (as the code has it). With exactly one instrument each of the three
    cells calls the general solver, once, with the initial guess [1], the
    bounds [(0, 1)] and the sum-to-one constraint, and returns what the
    solver returns; the initial guess is the only feasible point. *)
Theorem single_instrument_cell (covMatrix : list (list Q)) (returns : DataFrame Q)
    (df : list nace_row) (df_impact : list impact_row)
    (solver : minimize_call -> result OptimizeResult) :
  let call objective := MinimizeCall objective [1%Q] [(0%Q, 1%Q)] sum_to_one in
  mvp covMatrix 1 = Minimize (call (mvp_objective covMatrix)) Ret /\
  esg_ret_mvp covMatrix returns df 1 =
    Minimize (call (esg_ret_objective covMatrix returns df)) Ret /\
  impact_esg_mvp covMatrix returns df_impact 1 =
    Minimize (call (impact_esg_objective covMatrix returns df_impact)) Ret /\
  run solver (mvp covMatrix 1) =
    (solver (call (mvp_objective covMatrix)), [call (mvp_objective covMatrix)]) /\
  feasible 1 [1%Q] /\
  (forall w, feasible 1 w <-> exists q, w = [q] /\ (q == 1)%Q).
Proof.
  cbv zeta. split; [reflexivity|]. split; [reflexivity|]. split; [reflexivity|].
  split; [apply run_minimize_cell|]. split; [|apply feasible_single].
  apply feasible_single. exists 1%Q. split; reflexivity.
Qed.

(** C4, counterexample. With one instrument the cell does not return on
    its own: it is a call of the solver, and a run of it logs that call. *)
Lemma single_instrument_calls_solver :
  (forall r, mvp [[1%Q]] 1 <> Ret r) /\
  (exists call, mvp [[1%Q]] 1 = Minimize call Ret /\ x0 call = [1%Q]) /\
  List.length (snd (run (fun call => Ok (OptResult (x0 call) true)) (mvp [[1%Q]] 1))) = 1%nat.
Proof.
  split; [|split].
  - intros r. discriminate.
  - eexists. split; reflexivity.
  - reflexivity.
Qed.

(** ** Sector-code extraction *)

(** A classification string of four characters or fewer yields the empty
    code, one of five characters a code of one character, and a longer one
    a code of two: the length of the code is [min 2 (len - 4)]. *)
Theorem nace_code_of_size (s : string) :
  String.length (nace_code_of s) = Nat.min 2 (String.length s - 4).
Proof.
  remember (Nat.min 2 (String.length s - 4)) as m eqn:Hm.
  unfold nace_code_of, py_slice, slice_bound. simpl.
  remember (String.length s) as len eqn:Hlen.
  destruct (Z.ltb_spec (Z.max 0 (-6 + Z.of_nat len)) (Z.max 0 (-4 + Z.of_nat len))).
  - rewrite substring_length_exact; lia.
  - simpl. lia.
Qed.

Lemma substring_prefix (c t : string) :
  substring 0 (String.length c) (c ++ t) = c.
Proof.
  induction c as [|a c IH]; simpl.
  - destruct t; reflexivity.
  - now rewrite IH.
Qed.

Lemma substring_append (p c t : string) :
  substring (String.length p) (String.length c) (p ++ c ++ t) = c.
Proof.
  induction p as [|a p IH]; [exact (substring_prefix c t) | exact IH].
Qed.

Lemma string_length_append (s t : string) :
  String.length (s ++ t) = (String.length s + String.length t)%nat.
Proof.
  induction s as [|a s IH]; simpl; [reflexivity | now rewrite IH].
Qed.

(** On a classification of the documented form, a description followed by
    a division [XX] of two characters and four more characters ([.YY)]),
    the extracted code is the division. *)
Theorem nace_code_of_division (description division tail : string) :
  String.length division = 2%nat -> String.length tail = 4%nat ->
  nace_code_of (description ++ division ++ tail) = division.
Proof.
  intros Hd Ht. unfold nace_code_of, py_slice, slice_bound. simpl.
  rewrite !string_length_append, Hd, Ht.
  set (n := String.length description).
  destruct (Z.ltb_spec (Z.max 0 (-6 + Z.of_nat (n + (2 + 4))))
                       (Z.max 0 (-4 + Z.of_nat (n + (2 + 4))))); [|lia].
  replace (Z.to_nat (Z.max 0 (-6 + Z.of_nat (n + (2 + 4))))) with n by lia.
  replace (Z.to_nat (Z.max 0 (-4 + Z.of_nat (n + (2 + 4)))
                     - Z.max 0 (-6 + Z.of_nat (n + (2 + 4))))) with 2%nat by lia.
  rewrite <- Hd. apply substring_append.
Qed.

Lemma nace_code_of_division_witness :
  nace_code_of ("Civil engineering (NACE) (" ++ "42" ++ ".11)") = "42".
Proof.
  apply (nace_code_of_division "Civil engineering (NACE) (" "42" ".11)"); reflexivity.
Defined.

(** ** Data acquisition *)

Lemma existsb_eqb_In (k : string) (seen : list string) :
  existsb (String.eqb k) seen = true <-> In k seen.
Proof.
  rewrite existsb_exists. split.
  - intros (y & Hy & Heq). apply String.eqb_eq in Heq. now subst.
  - intros Hin. exists k. split; [exact Hin | apply String.eqb_refl].
Qed.

Lemma drop_duplicates_from_In {A : Type} (key : A -> string) (l : list A)
    (seen : list string) (a : A) :
  In a (drop_duplicates_from key seen l) -> In a l /\ ~ In (key a) seen.
Proof.
  revert seen. induction l as [|b l IH]; intros seen; simpl; [tauto|].
  destruct (existsb (String.eqb (key b)) seen) eqn:Hseen.
  - intros H. apply IH in H. tauto.
  - intros [<-|H].
    + split; [now left|]. intros Hin. apply existsb_eqb_In in Hin. congruence.
    + apply IH in H as [Hl Hns]. split; [now right|].
      intros Hin. apply Hns. now right.
Qed.

Lemma drop_duplicates_from_key {A : Type} (key : A -> string) (l : list A)
    (seen : list string) (k : string) :
  In k (map key l) -> ~ In k seen ->
  In k (map key (drop_duplicates_from key seen l)).
Proof.
  revert seen. induction l as [|b l IH]; intros seen; simpl; [tauto|].
  intros Hin Hns.
  destruct (existsb (String.eqb (key b)) seen) eqn:Hseen.
  - apply existsb_eqb_In in Hseen.
    destruct Hin as [Hb|Hin]; [congruence | now apply IH].
  - simpl. destruct (String.eqb_spec (key b) k) as [Heq|Hne]; [now left|].
    right. destruct Hin as [Hb|Hin]; [contradiction|].
    apply IH; [exact Hin|]. intros [Hb|Hs]; [contradiction | now apply Hns].
Qed.

Lemma drop_duplicates_from_NoDup {A : Type} (key : A -> string) (l : list A)
    (seen : list string) :
  List.NoDup (map key (drop_duplicates_from key seen l)).
Proof.
  revert seen. induction l as [|b l IH]; intros seen; simpl; [constructor|].
  destruct (existsb (String.eqb (key b)) seen); [apply IH|].
  simpl. constructor; [|apply IH].
  intros Hin. apply in_map_iff in Hin as (a & Hka & Ha).
  apply drop_duplicates_from_In in Ha as [_ Hns]. apply Hns. left. now symmetry.
Qed.

Lemma drop_duplicates_from_length {A : Type} (key : A -> string) (l : list A)
    (seen : list string) :
  (List.length (drop_duplicates_from key seen l) <= List.length l)%nat.
Proof.
  revert seen. induction l as [|b l IH]; intros seen; simpl; [lia|].
  destruct (existsb (String.eqb (key b)) seen); simpl.
  - specialize (IH seen). lia.
  - specialize (IH (key b :: seen)). lia.
Qed.

Lemma NoDup_filter_list {A : Type} (f : A -> bool) (l : list A) :
  List.NoDup l -> List.NoDup (List.filter f l).
Proof.
  induction 1 as [|a l Ha _ IH]; simpl; [constructor|].
  destruct (f a); [|exact IH]. constructor; [|exact IH].
  intros Hin. apply filter_In in Hin. tauto.
Qed.

(** [ric_list] holds exactly the non-empty identifiers among the first 350
    constituents, each once, so it has at most 350 entries. *)
Theorem ric_list_unique (constituents : list (string * string)) :
  List.NoDup (ric_list_of constituents) /\
  (List.length (ric_list_of constituents) <= 350)%nat /\
  (forall r, In r (ric_list_of constituents) <->
             r <> "" /\ In r (map fst (firstn N_constituents constituents))).
Proof.
  unfold ric_list_of, drop_duplicates. split; [|split].
  - apply NoDup_filter_list, drop_duplicates_from_NoDup.
  - etransitivity; [apply filter_length_le|]. rewrite length_map.
    etransitivity; [apply drop_duplicates_from_length|].
    apply firstn_le_length.
  - intros r. rewrite filter_In. split.
    + intros [Hin Hne]. split.
      * destruct (String.eqb_spec r ""); [discriminate | assumption].
      * apply in_map_iff in Hin as (a & <- & Ha).
        apply drop_duplicates_from_In in Ha as [Ha _]. now apply in_map.
    + intros [Hne Hin]. split.
      * apply drop_duplicates_from_key; [exact Hin | intros []].
      * destruct (String.eqb_spec r ""); [contradiction | reflexivity].
Qed.

(** The rics of the universe are those of the admitted rows, in order. *)
Lemma df_esg_constraint_rics (df_esg : list esg_row) :
  map ric (df_esg_constraint df_esg) =
  map e_ric
    (List.filter (fun i => (0 <? String.length (nace_code_of (e_nace i)))%nat
                           && Qle_bool esg_bound (e_esg i)) df_esg).
Proof.
  unfold df_esg_constraint, df_esg_nace. rewrite concat_nace_rows.
  induction df_esg as [|i df IH]; simpl; [reflexivity|].
  destruct (0 <? String.length (nace_code_of (e_nace i)))%nat; simpl; [|exact IH].
  destruct (Qle_bool esg_bound (e_esg i)); simpl; [|exact IH].
  now rewrite IH.
Qed.

Lemma NoDup_map_filter {A B : Type} (f : A -> B) (p : A -> bool) (l : list A) :
  List.NoDup (map f l) -> List.NoDup (map f (List.filter p l)).
Proof.
  induction l as [|a l IH]; simpl; intros Hnd; [constructor|].
  inversion Hnd as [|? ? Ha Hl]; subst.
  destruct (p a); simpl; [|now apply IH].
  constructor; [|now apply IH].
  intros Hin. apply Ha. apply in_map_iff in Hin as (b & Hb & Hin).
  apply filter_In in Hin as [Hin _]. apply in_map_iff. eauto.
Qed.

(** After [drop_duplicates] the index of [df_esg] is unique, and the
    filters keep it so: no ric occurs twice in the optimisation universe,
    which has at most as many rows as the data read. *)
Theorem universe_index_unique (raw : list esg_row) :
  List.NoDup (map e_ric (df_esg_of raw)) /\
  List.NoDup (map ric (df_esg_constraint (df_esg_of raw))) /\
  (K_of (df_esg_of raw) <= List.length raw)%nat.
Proof.
  assert (Hnd : List.NoDup (map e_ric (df_esg_of raw)))
    by apply drop_duplicates_from_NoDup.
  split; [exact Hnd|]. split.
  - rewrite df_esg_constraint_rics. apply NoDup_map_filter, Hnd.
  - unfold K_of. rewrite <- (length_map ric), df_esg_constraint_rics, length_map.
    etransitivity; [apply filter_length_le|].
    apply drop_duplicates_from_length.
Qed.

(** ** The solver call *)

Lemma Qsum_repeat (q : Q) (n : nat) :
  (Qsum (repeat q n) == inject_Z (Z.of_nat n) * q)%Q.
Proof.
  induction n as [|n IH].
  - simpl. ring.
  - cbn [repeat Qsum fold_right]. fold (Qsum (repeat q n)). rewrite IH.
    rewrite Nat2Z.inj_succ. unfold Z.succ. rewrite inject_Z_plus. ring.
Qed.

Lemma inject_nat_pos (n : nat) : (0 < n)%nat -> (0 < inject_Z (Z.of_nat n))%Q.
Proof.
  intros Hn. change 0%Q with (inject_Z 0). rewrite <- Zlt_Qlt. lia.
Qed.

Lemma uniform_weight_bounds (K : nat) :
  (0 < K)%nat ->
  (0 <= 1 / inject_Z (Z.of_nat K) /\ 1 / inject_Z (Z.of_nat K) <= 1)%Q.
Proof.
  intros HK. pose proof (inject_nat_pos K HK) as Hpos.
  assert (H1 : (1 <= inject_Z (Z.of_nat K))%Q).
  { change 1%Q with (inject_Z 1). rewrite <- Zle_Qle. lia. }
  split.
  - apply Qle_shift_div_l; [exact Hpos | lra].
  - apply Qle_shift_div_r; [exact Hpos | lra].
Qed.

(** With at least one instrument every optimisation cell calls the solver
    with one initial weight and one pair of bounds [(0, 1)] per instrument,
    and the initial guess, [1 / K] everywhere, is feasible: it lies within
    the bounds and sums to one. *)
Theorem initial_guess_feasible (objective : list Q -> result Q) (K : nat) :
  (0 < K)%nat ->
  exists call,
    minimize_cell objective K = Minimize call Ret /\
    fun_ call = objective /\
    x0 call = repeat (1 / inject_Z (Z.of_nat K))%Q K /\
    bounds call = repeat (0%Q, 1%Q) K /\
    constraints call = sum_to_one /\
    feasible K (x0 call).
Proof.
  intros HK. eexists. split; [apply minimize_cell_pos, HK|].
  cbn [fun_ x0 bounds constraints]. repeat split; try reflexivity.
  - apply repeat_length.
  - apply List.Forall_forall. intros q Hq. apply repeat_spec in Hq. subst q.
    apply uniform_weight_bounds, HK.
  - unfold sum_to_one. rewrite Qsum_repeat.
    pose proof (inject_nat_pos K HK) as Hpos. field. lra.
Qed.

Lemma initial_guess_feasible_witness :
  exists call,
    minimize_cell (mvp_objective [[1; 0; 0]; [0; 1; 0]; [0; 0; 1]]%Q) 3 = Minimize call Ret /\
    fun_ call = mvp_objective [[1; 0; 0]; [0; 1; 0]; [0; 0; 1]]%Q /\
    x0 call = repeat (1 / inject_Z (Z.of_nat 3))%Q 3 /\
    bounds call = repeat (0%Q, 1%Q) 3 /\
    constraints call = sum_to_one /\
    feasible 3 (x0 call).
Proof.
  apply (initial_guess_feasible (mvp_objective [[1; 0; 0]; [0; 1; 0]; [0; 0; 1]]%Q) 3).
  lia.
Defined.

(** ** Shapes *)

Lemma numpy_dot_mismatch (u v : list Q) :
  List.length u <> List.length v -> numpy_dot u v = Raise ValueError.
Proof.
  intros Hne. unfold numpy_dot.
  destruct (Nat.eqb_spec (List.length u) (List.length v)); [contradiction | reflexivity].
Qed.

Lemma risk_measure_mismatch (C : list (list Q)) (w : list Q) :
  Forall (fun row => List.length row = List.length C) C ->
  List.length w <> List.length C ->
  risk_measure C w = Raise ValueError.
Proof.
  intros Hrows Hne. unfold risk_measure, numpy_dot_mv.
  destruct C as [|row C'].
  - simpl. apply numpy_dot_mismatch. exact Hne.
  - inversion Hrows as [|? ? Hrow _]; subst.
    cbn [mapM]. rewrite numpy_dot_mismatch by congruence. reflexivity.
Qed.

(** An objective over a square covariance matrix and a rectangular return
    frame has a value exactly when the weight vector has one entry per
    row of the matrix, per column of the frame and per score; with any
    other length it raises [ValueError]. *)
Theorem objective_shape_error (returnCoef scoreCoef : Q) (C : list (list Q))
    (returns : DataFrame Q) (score w : list Q) :
  Forall (fun row => List.length row = List.length C) C ->
  Forall (fun period => List.length period = List.length (columns returns))
         (rows returns) ->
  (List.length w = List.length C /\
   List.length w = List.length (columns returns) /\
   List.length w = List.length score ->
   exists v, blended_objective returnCoef scoreCoef C returns score w = Ok v) /\
  (List.length w <> List.length C \/
   List.length w <> List.length (columns returns) \/
   List.length w <> List.length score ->
   blended_objective returnCoef scoreCoef C returns score w = Raise ValueError) /\
  (List.length w <> List.length C -> mvp_objective C w = Raise ValueError).
Proof.
  intros Hsq Hrect. split; [|split].
  - intros (HC & Hcols & Hscore). eexists. apply blended_objective_Ok.
    unfold frame_shaped. rewrite HC, <- Hcols in *.
    repeat split; try assumption; congruence.
  - intros Hbad. unfold blended_objective.
    destruct (Nat.eq_dec (List.length w) (List.length C)) as [HC|HC].
    2:{ rewrite risk_measure_mismatch by assumption. reflexivity. }
    rewrite risk_measure_Ok by (rewrite HC; auto). cbn [mbind result_bind].
    destruct (Nat.eq_dec (List.length w) (List.length (columns returns))) as [Hcols|Hcols].
    2:{ rewrite (numpy_dot_mismatch w (frame_sum returns)); [reflexivity|].
        rewrite frame_sum_length by assumption. exact Hcols. }
    rewrite (numpy_dot_Ok w (frame_sum returns))
      by (rewrite frame_sum_length by assumption; exact Hcols).
    cbn [mbind result_bind].
    rewrite (numpy_dot_mismatch w score) by tauto. reflexivity.
  - intros HC. apply risk_measure_mismatch; assumption.
Qed.

Lemma objective_shape_error_witness :
  blended_objective 0.0002 0.00002 [[1; 0]; [0; 1]]%Q
    (Frame ["A.N"] [[1 # 100]; [3 # 100]]%Q) [80; 90]%Q [1 # 2; 1 # 2]%Q =
  Raise ValueError.
Proof.
  apply (objective_shape_error 0.0002 0.00002 [[1; 0]; [0; 1]]%Q
           (Frame ["A.N"] [[1 # 100]; [3 # 100]]%Q) [80; 90]%Q [1 # 2; 1 # 2]%Q).
  - repeat constructor.
  - repeat constructor.
  - right. left. cbn. lia.
Defined.

(** ** Portfolio metrics of feasible weights *)

Lemma dot_sum_lower (b : Q) (w s : list Q) :
  List.length w = List.length s ->
  Forall (fun wi => 0 <= wi)%Q w -> Forall (fun si => b <= si)%Q s ->
  (b * Qsum w <= dot_sum w s)%Q.
Proof.
  intros Hlen Hw. revert s Hlen.
  induction Hw as [|wi w Hwi _ IH]; intros [|si s] Hlen Hs; try discriminate.
  - unfold dot_sum. simpl. lra.
  - inversion Hs as [|? ? Hsi Hs']; subst.
    unfold dot_sum in *. cbn [zip_with Qsum fold_right].
    fold (Qsum w). fold (Qsum (zip_with Qmult w s)).
    specialize (IH s ltac:(simpl in Hlen; lia) Hs').
    assert (0 <= wi * (si - b))%Q by (apply Qmult_le_0_compat; lra).
    lra.
Qed.

(** Every feasible portfolio over the filtered universe, so each of the
    three portfolios, has an ESG score of at least 70. *)
Theorem portfolio_esg_bound (df_esg : list esg_row) (w : list Q) :
  feasible (K_of df_esg) w ->
  exists v, numpy_dot w (map esg (df_esg_constraint df_esg)) = Ok v /\ (70 <= v)%Q.
Proof.
  intros (Hlen & Hbounds & Hsum).
  assert (Hl : List.length w = List.length (map esg (df_esg_constraint df_esg)))
    by (rewrite length_map; exact Hlen).
  rewrite numpy_dot_Ok by exact Hl. eexists. split; [reflexivity|].
  assert (Hlow : (70 * Qsum w <= dot_sum w (map esg (df_esg_constraint df_esg)))%Q).
  { apply dot_sum_lower; [exact Hl | |].
    - eapply List.Forall_impl; [|exact Hbounds]. simpl. tauto.
    - apply List.Forall_map. exact (df_esg_constraint_esg df_esg). }
  unfold sum_to_one in Hsum. lra.
Qed.

Lemma portfolio_esg_bound_witness :
  exists v,
    numpy_dot [1 # 4; 3 # 4]%Q
      (map esg (df_esg_constraint
                  [EsgRow "A.N" "A" 85 "Construction of buildings (NACE) (41.10)";
                   EsgRow "B.N" "B" 90 "Education (NACE) (85.42)";
                   EsgRow "C.N" "C" 60 "Civil engineering (NACE) (42.11)"])) = Ok v /\
    (70 <= v)%Q.
Proof.
  apply (portfolio_esg_bound
           [EsgRow "A.N" "A" 85 "Construction of buildings (NACE) (41.10)";
            EsgRow "B.N" "B" 90 "Education (NACE) (85.42)";
            EsgRow "C.N" "C" 60 "Civil engineering (NACE) (42.11)"]
           [1 # 4; 3 # 4]%Q).
  split; [reflexivity|]. split.
  - repeat constructor; discriminate.
  - reflexivity.
Defined.

(** ** Sector distribution *)

Lemma Qsum_Permutation (l l' : list Q) : l ≡ₚ l' -> (Qsum l == Qsum l')%Q.
Proof.
  induction 1 as [|q l l' _ IH|p q l|l1 l2 l3 _ IH1 _ IH2]; simpl.
  - reflexivity.
  - rewrite IH. reflexivity.
  - ring.
  - rewrite IH1. exact IH2.
Qed.

(** The weight of one key among distinct keys. *)
Lemma Qsum_indicator (c : string) (w : Q) (L : list string) :
  List.NoDup L ->
  (Qsum (map (fun s => if String.eqb c s then w else 0) L) ==
   if existsb (String.eqb c) L then w else 0)%Q.
Proof.
  induction 1 as [|s L Hs _ IH]; simpl; [reflexivity|].
  rewrite IH. destruct (String.eqb_spec c s) as [->|Hne]; simpl.
  - destruct (existsb (String.eqb s) L) eqn:Hex; [|ring].
    apply existsb_eqb_In in Hex. contradiction.
  - ring.
Qed.

(** Grouping the rows by a key and adding up the groups over all keys
    gives the total. *)
Lemma group_sums_total {A : Type} (code : A -> string) (wt : A -> Q)
    (df : list A) (L : list string) :
  List.NoDup L -> (forall r, In r df -> In (code r) L) ->
  (Qsum (map (fun s => Qsum (map wt (List.filter (fun r => String.eqb (code r) s) df))) L)
   == Qsum (map wt df))%Q.
Proof.
  intros HL. induction df as [|r df IH]; intros Hin.
  - cbn [List.filter map]. clear. induction L as [|s L IHL]; [reflexivity|].
    cbn [map]. unfold Qsum in *. cbn [fold_right]. rewrite IHL. reflexivity.
  - assert (Hstep :
      (Qsum (map (fun s => Qsum (map wt (List.filter (fun r0 => String.eqb (code r0) s)
                                                     (r :: df)))) L) ==
       Qsum (map (fun s => if String.eqb (code r) s then wt r else 0) L) +
       Qsum (map (fun s => Qsum (map wt (List.filter (fun r0 => String.eqb (code r0) s) df))) L))%Q).
    { clear. induction L as [|s L IHL]; simpl; [ring|].
      rewrite IHL. destruct (String.eqb (code r) s); simpl; ring. }
    rewrite Hstep, IH by (intros r' Hr'; apply Hin; now right).
    rewrite Qsum_indicator by exact HL.
    assert (Hex : existsb (String.eqb (code r)) L = true).
    { apply existsb_eqb_In, Hin. now left. }
    rewrite Hex. simpl. reflexivity.
Qed.

Lemma replace_empty_nonempty (s : string) : replace_empty s <> "".
Proof.
  unfold replace_empty.
  destruct (String.eqb_spec s ""); [discriminate | assumption].
Qed.

Lemma pie_sections (df : list weighted_row) (s : string) :
  In s (List.filter (fun item => (0 <? String.length item)%nat)
          (map (fun r => nace_code (row_of r))
               (map (fun r => WeightedRow (replace_empty_row (row_of r)) (weight r)) df)))
  <-> In s (map (fun r => replace_empty (nace_code (row_of r))) df).
Proof.
  rewrite filter_In, map_map. simpl. split; [tauto|].
  intros Hin. split; [exact Hin|].
  apply in_map_iff in Hin as (r & <- & _).
  apply code_nonempty_iff, replace_empty_nonempty.
Qed.

Lemma pie_group_weight (df : list weighted_row) (s : string) :
  group_weight (map (fun r => WeightedRow (replace_empty_row (row_of r)) (weight r)) df) s =
  Qsum (map weight
          (List.filter (fun r => String.eqb (replace_empty (nace_code (row_of r))) s) df)).
Proof.
  unfold group_weight. induction df as [|r df IH]; simpl; [reflexivity|].
  destruct (String.eqb (replace_empty (nace_code (row_of r))) s); simpl.
  - unfold Qsum in *. simpl. now rewrite IH.
  - exact IH.
Qed.

(** The sectors of the pie chart are the sector codes of the rows, an
    empty code counted as ['nan'], and the size of a sector is the sum of
    the weights of its rows. *)
Theorem pie_sizes_lookup (df : list weighted_row) (s : string) (v : Q) :
  calcWeightsForPieChart df !! s = Some v <->
  In s (map (fun r => replace_empty (nace_code (row_of r))) df) /\
  v = Qsum (map weight
              (List.filter (fun r => String.eqb (replace_empty (nace_code (row_of r))) s) df)).
Proof.
  unfold calcWeightsForPieChart. cbv zeta.
  rewrite lookup_set_to_map by (intros y y' _ _ H; exact H).
  split.
  - intros (y & Hy & [= -> <-]).
    rewrite elem_of_list_to_set, list_elem_of_In, pie_sections in Hy.
    split; [exact Hy | apply pie_group_weight].
  - intros [Hin ->]. exists s. split.
    + rewrite elem_of_list_to_set, list_elem_of_In, pie_sections. exact Hin.
    + rewrite pie_group_weight. reflexivity.
Qed.

Lemma fst_pairs {A : Type} (g : string -> A) (l : list string) :
  ((fun s => (s, g s)) <$> l).*1 = l.
Proof.
  induction l as [|s l IH]; [reflexivity|]. cbn. f_equal. exact IH.
Qed.

Lemma pie_items (df : list weighted_row) :
  exists L : list string,
    List.NoDup L /\
    (forall s, In s L <-> In s (map (fun r => replace_empty (nace_code (row_of r))) df)) /\
    map_to_list (calcWeightsForPieChart df) ≡ₚ
    map (fun s => (s, Qsum (map weight
            (List.filter (fun r => String.eqb (replace_empty (nace_code (row_of r))) s) df)))) L.
Proof.
  unfold calcWeightsForPieChart. cbv zeta.
  set (sections := list_to_set _ : gset string).
  exists (elements sections). split; [|split].
  - apply NoDup_ListNoDup, NoDup_elements.
  - intros s. rewrite <- list_elem_of_In, elem_of_elements. unfold sections.
    rewrite elem_of_list_to_set, list_elem_of_In. apply pie_sections.
  - unfold set_to_map. rewrite map_to_list_to_map.
    + match goal with |- ?a ≡ₚ ?b => replace a with b; [reflexivity|] end.
      apply map_ext. intros s. now rewrite pie_group_weight.
    + rewrite fst_pairs. apply NoDup_elements.
Qed.

Lemma pie_sizes_sum (df : list weighted_row) :
  (Qsum (map snd (map_to_list (calcWeightsForPieChart df))) == Qsum (map weight df))%Q.
Proof.
  destruct (pie_items df) as (L & HL & Hkeys & Hperm).
  rewrite (Qsum_Permutation _ _ (fmap_Permutation snd _ _ Hperm)).
  change (@fmap list _ _ _ snd) with (@map (string * Q) Q snd).
  rewrite map_map. cbn [snd].
  apply (group_sums_total (fun r => replace_empty (nace_code (row_of r))) weight df L HL).
  intros r Hr. apply Hkeys. apply in_map_iff. eauto.
Qed.

(** The sizes of the pie chart add up to the total weight of the frame:
    every row is counted in exactly one sector. *)
Theorem pie_sizes_total (df : list weighted_row) :
  (Qsum (map snd (map_to_list (calcWeightsForPieChart df))) == Qsum (map weight df))%Q.
Proof.
  destruct (pie_items df) as (L & HL & Hkeys & Hperm).
  rewrite (Qsum_Permutation _ _ (fmap_Permutation snd _ _ Hperm)).
  change (@fmap list _ _ _ snd) with (@map (string * Q) Q snd).
  rewrite map_map. cbn [snd].
  apply (group_sums_total (fun r => replace_empty (nace_code (row_of r))) weight df L HL).
  intros r Hr. apply Hkeys. apply in_map_iff. eauto.
Qed.

Lemma pie_keys (df : list weighted_row) (s : string) :
  is_Some (calcWeightsForPieChart df !! s) ->
  In s (map (fun r => replace_empty (nace_code (row_of r))) df).
Proof.
  intros [v Hv]. destruct (pie_items df) as (L & _ & Hkeys & Hperm).
  apply elem_of_map_to_list in Hv. rewrite Hperm in Hv.
  apply list_elem_of_In, in_map_iff in Hv as (s' & [= -> _] & Hs').
  apply Hkeys, Hs'.
Qed.

Lemma plot_items_ok (labels_dict : gmap string string) (l : list (string * Q)) :
  (forall item, In item l -> is_Some (labels_dict !! fst item)) ->
  exists items,
    mapM (fun item : string * Q =>
            d ← dict_getitem labels_dict (fst item); Ok (pie_label d (fst item), snd item)) l
    = Ok items /\
    map snd items = map snd l /\
    Forall2 (fun item label =>
               exists d, labels_dict !! fst item = Some d /\ label = pie_label d (fst item))
            l (map fst items).
Proof.
  induction l as [|item l IH]; intros Hall.
  - exists []. repeat split. constructor.
  - destruct IH as (items & Hm & Hs & Hl); [intros i Hi; apply Hall; now right|].
    destruct (Hall item (or_introl eq_refl)) as [d Hd].
    exists ((pie_label d (fst item), snd item) :: items).
    split; [|split].
    + apply mapM_Ok_Forall2. constructor; [|apply mapM_Ok_Forall2, Hm].
      unfold dict_getitem. rewrite Hd. reflexivity.
    + cbn [map snd]. now rewrite Hs.
    + cbn [map fst]. constructor; [eauto | exact Hl].
Qed.

(** The labels and sizes of the pie chart are computed when every sector
    of [piesizes] is a key of the label table, one label
    ['<description> (<code>)'] and one size per sector; a sector that is
    not a key raises [KeyError]. *)
Theorem pie_chart_labels (labels_dict : gmap string string) (piesizes : gmap string Q) :
  ((forall c, is_Some (piesizes !! c) -> is_Some (labels_dict !! c)) ->
   exists labels,
     plotPieChartWithNACELabels labels_dict piesizes =
       Ok (labels, map snd (map_to_list piesizes)) /\
     List.length labels = size piesizes /\
     Forall2 (fun item label =>
                exists d, labels_dict !! fst item = Some d /\ label = pie_label d (fst item))
             (map_to_list piesizes) labels) /\
  (forall c, is_Some (piesizes !! c) -> labels_dict !! c = None ->
   exists k, is_Some (piesizes !! k) /\ labels_dict !! k = None /\
             plotPieChartWithNACELabels labels_dict piesizes = Raise (KeyError k)).
Proof.
  split.
  - intros Hall.
    destruct (plot_items_ok labels_dict (map_to_list piesizes)) as (items & Hm & Hs & Hl).
    { intros [c v] Hin. apply Hall. exists v.
      apply elem_of_map_to_list, list_elem_of_In, Hin. }
    exists (map fst items). unfold plotPieChartWithNACELabels.
    rewrite Hm. cbn [mbind result_bind]. rewrite Hs. split; [reflexivity|].
    split; [|exact Hl].
    rewrite <- (Forall2_length _ _ _ Hl). apply length_map_to_list.
  - intros c [v Hv] Hnone. unfold plotPieChartWithNACELabels.
    destruct (mapM_Raise
                (fun item : string * Q =>
                   d ← dict_getitem labels_dict (fst item);
                   Ok (pie_label d (fst item), snd item))
                (map_to_list piesizes) (c, v)) as ([k v'] & e' & Hin & Hf & Hm).
    { apply list_elem_of_In, elem_of_map_to_list, Hv. }
    { exists (KeyError c). unfold dict_getitem. cbn [fst]. rewrite Hnone. reflexivity. }
    exists k. cbn [fst snd] in Hf. unfold dict_getitem in Hf.
    destruct (labels_dict !! k) as [d|] eqn:Hk; [discriminate|].
    cbn [mbind result_bind] in Hf. injection Hf as <-.
    split; [|split; [reflexivity|]].
    + exists v'. apply elem_of_map_to_list, list_elem_of_In, Hin.
    + rewrite Hm. reflexivity.
Qed.

Lemma pie_chart_labels_witness :
  (exists labels,
     plotPieChartWithNACELabels nace_dict {["41" := 1%Q]} =
       Ok (labels, map snd (map_to_list ({["41" := 1%Q]} : gmap string Q))) /\
     List.length labels = size ({["41" := 1%Q]} : gmap string Q) /\
     Forall2 (fun item label =>
                exists d, nace_dict !! fst item = Some d /\ label = pie_label d (fst item))
             (map_to_list ({["41" := 1%Q]} : gmap string Q)) labels) /\
  (exists k, is_Some (({["34" := 1%Q]} : gmap string Q) !! k) /\ nace_dict !! k = None /\
             plotPieChartWithNACELabels nace_dict {["34" := 1%Q]} = Raise (KeyError k)).
Proof.
  split.
  - apply (proj1 (pie_chart_labels nace_dict {["41" := 1%Q]})).
    intros c [v Hv]. apply lookup_singleton_Some in Hv as [<- _].
    apply nace_dict_has_41.
  - apply (proj2 (pie_chart_labels nace_dict {["34" := 1%Q]}) "34").
    + rewrite lookup_singleton_eq. eauto.
    + vm_compute. reflexivity.
Defined.

Example pie_chart_ex :
  plotPieChartWithNACELabels nace_dict {["41" := 1%Q]} =
  Ok (["Construction of buildings (41)"], [1%Q]).
Proof. vm_compute. reflexivity. Qed.

Lemma set_weight_Ok (df : list nace_row) (x : list Q) :
  List.length x = List.length df ->
  set_weight df x = Ok (zip_with WeightedRow df x) /\
  map row_of (zip_with WeightedRow df x) = df /\
  map weight (zip_with WeightedRow df x) = x.
Proof.
  intros Hlen. unfold set_weight. rewrite Hlen, Nat.eqb_refl.
  split; [reflexivity|]. clear -Hlen. revert x Hlen.
  induction df as [|r df IH]; intros [|xi x] Hlen; try discriminate.
  - split; reflexivity.
  - destruct (IH x) as [Hr Hw]; [simpl in Hlen; lia|].
    cbn [zip_with map row_of weight]. now rewrite Hr, Hw.
Qed.

(** For a feasible weight vector over a universe whose sector codes are
    all keys of [nace_dict], attaching the weights, grouping them by sector
    and labelling the sectors raises no error, gives one label per size,
    and the sizes of the pie chart add up to one. *)
Theorem sector_chart_of_universe (df_esg : list esg_row) (w : list Q) :
  feasible (K_of df_esg) w ->
  (forall r, In r (df_esg_constraint df_esg) -> is_Some (nace_dict !! nace_code r)) ->
  exists df labels sizes,
    set_weight (df_esg_constraint df_esg) w = Ok df /\
    plotPieChartWithNACELabels nace_dict (calcWeightsForPieChart df) = Ok (labels, sizes) /\
    List.length labels = List.length sizes /\
    (Qsum sizes == 1)%Q.
Proof.
  intros (Hlen & _ & Hsum) Hcodes.
  destruct (set_weight_Ok (df_esg_constraint df_esg) w Hlen) as (Hset & Hrows & Hw).
  set (df := zip_with WeightedRow (df_esg_constraint df_esg) w) in *.
  destruct (plot_items_ok nace_dict (map_to_list (calcWeightsForPieChart df)))
    as (items & Hm & Hs & Hl).
  { intros [c v] Hin. cbn [fst].
    assert (Hkey : is_Some (calcWeightsForPieChart df !! c)).
    { exists v. apply elem_of_map_to_list, list_elem_of_In, Hin. }
    apply pie_keys, in_map_iff in Hkey as (r & <- & Hr).
    assert (Hrow : In (row_of r) (df_esg_constraint df_esg)).
    { rewrite <- Hrows. now apply in_map. }
    assert (Hne : nace_code (row_of r) <> "").
    { unfold df_esg_constraint in Hrow.
      apply in_map_iff in Hrow as (r0 & <- & _). apply replace_empty_nonempty. }
    rewrite replace_empty_id by exact Hne. apply Hcodes, Hrow. }
  exists df, (map fst items), (map snd items).
  split; [exact Hset|]. split; [|split].
  - unfold plotPieChartWithNACELabels. rewrite Hm. reflexivity.
  - now rewrite !length_map.
  - rewrite Hs, pie_sizes_sum, Hw. unfold sum_to_one in Hsum. lra.
Qed.

Lemma sector_chart_of_universe_witness :
  exists df labels sizes,
    set_weight (df_esg_constraint
                  [EsgRow "A.N" "A" 85 "Construction of buildings (NACE) (41.10)";
                   EsgRow "B.N" "B" 90 "Education (NACE) (85.42)";
                   EsgRow "C.N" "C" 75 "Construction of buildings (NACE) (41.20)"])
               [1 # 4; 1 # 2; 1 # 4]%Q = Ok df /\
    plotPieChartWithNACELabels nace_dict (calcWeightsForPieChart df) = Ok (labels, sizes) /\
    List.length labels = List.length sizes /\
    (Qsum sizes == 1)%Q.
Proof.
  apply (sector_chart_of_universe
           [EsgRow "A.N" "A" 85 "Construction of buildings (NACE) (41.10)";
            EsgRow "B.N" "B" 90 "Education (NACE) (85.42)";
            EsgRow "C.N" "C" 75 "Construction of buildings (NACE) (41.20)"]
           [1 # 4; 1 # 2; 1 # 4]%Q).
  - split; [reflexivity|]. split; [repeat constructor; discriminate | reflexivity].
  - intros r Hr. vm_compute in Hr.
    destruct Hr as [<-|[<-|[<-|[]]]]; vm_compute; eauto.
Defined.

Example calcWeightsForPieChart_ex :
  calcWeightsForPieChart
    [WeightedRow (NaceRow "A.N" "A" 85 "" "41") (1 # 4);
     WeightedRow (NaceRow "B.N" "B" 90 "" "85") (1 # 2);
     WeightedRow (NaceRow "C.N" "C" 75 "" "41") (1 # 4);
     WeightedRow (NaceRow "D.N" "D" 75 "" "") (1 # 8)]%Q !! "41"
  = Some ((1 # 4) + ((1 # 4) + 0))%Q /\
  calcWeightsForPieChart
    [WeightedRow (NaceRow "A.N" "A" 85 "" "41") (1 # 4);
     WeightedRow (NaceRow "D.N" "D" 75 "" "") (1 # 8)]%Q !! "nan"
  = Some ((1 # 8) + 0)%Q.
Proof. split; vm_compute; reflexivity. Qed.

(** ** The printed report *)

Lemma Qmin_from_le (a : Q) (l : list Q) (y : Q) :
  In y (a :: l) -> (Qmin_from a l <= y)%Q.
Proof.
  revert a. induction l as [|b l IH]; intros a Hin; simpl.
  - destruct Hin as [<-|[]]. apply Qle_refl.
  - destruct Hin as [<-|Hin]; [apply Q.le_min_l|].
    eapply Qle_trans; [apply Q.le_min_r | apply IH, Hin].
Qed.

Lemma Qmin_from_pos (a : Q) (l : list Q) :
  Forall (fun y => 0 < y)%Q (a :: l) -> (0 < Qmin_from a l)%Q.
Proof.
  revert a. induction l as [|b l IH]; intros a Hall; simpl.
  - now inversion Hall.
  - inversion Hall as [|? ? Ha Hl]; subst.
    apply Q.min_glb_lt; [exact Ha | apply IH, Hl].
Qed.

Lemma Qmax_from_ge (a : Q) (l : list Q) (y : Q) :
  In y (a :: l) -> (y <= Qmax_from a l)%Q.
Proof.
  revert a. induction l as [|b l IH]; intros a Hin; simpl.
  - destruct Hin as [<-|[]]. apply Qle_refl.
  - destruct Hin as [<-|Hin]; [apply Q.le_max_l|].
    eapply Qle_trans; [apply IH, Hin | apply Q.le_max_r].
Qed.

Lemma Qmax_from_le (a : Q) (l : list Q) (b : Q) :
  Forall (fun y => y <= b)%Q (a :: l) -> (Qmax_from a l <= b)%Q.
Proof.
  revert a. induction l as [|c l IH]; intros a Hall; simpl.
  - now inversion Hall.
  - inversion Hall as [|? ? Ha Hl]; subst.
    apply Q.max_lub; [exact Ha | apply IH, Hl].
Qed.

Lemma Qmax_from_In (a : Q) (l : list Q) : In (Qmax_from a l) (a :: l).
Proof.
  revert a. induction l as [|b l IH]; intros a; simpl; [now left|].
  unfold Qmax, GenericMinMax.gmax.
  destruct (a ?= Qmax_from b l)%Q; [now left | right; apply IH | now left].
Qed.

Lemma Qsum_le_max (l : list Q) (b : Q) :
  Forall (fun y => y <= b)%Q l ->
  (Qsum l <= inject_Z (Z.of_nat (List.length l)) * b)%Q.
Proof.
  induction 1 as [|y l Hy _ IH].
  - change (0 <= 0 * b)%Q. lra.
  - cbn [Qsum fold_right List.length]. fold (Qsum l).
    rewrite Nat2Z.inj_succ. unfold Z.succ. rewrite inject_Z_plus.
    change (inject_Z 1) with 1%Q.
    assert (E : ((inject_Z (Z.of_nat (List.length l)) + 1) * b ==
                 inject_Z (Z.of_nat (List.length l)) * b + b)%Q) by ring.
    rewrite E. lra.
Qed.

Lemma nonzero_In (x : list Q) (y : Q) :
  In y (nonzero x) <-> In y x /\ ~ (y == 0)%Q.
Proof.
  unfold nonzero. rewrite filter_In. rewrite negb_true_iff.
  split; intros [Hin Hz]; (split; [exact Hin|]).
  - intros Heq. apply Qeq_bool_iff in Heq. congruence.
  - destruct (Qeq_bool y 0) eqn:E; [|reflexivity].
    apply Qeq_bool_iff in E. contradiction.
Qed.

Lemma Qsum_zero (x : list Q) : Forall (fun xi => xi == 0)%Q x -> (Qsum x == 0)%Q.
Proof.
  induction 1 as [|y l Hy _ IH]; [reflexivity|].
  cbn [Qsum fold_right]. fold (Qsum l). rewrite Hy, IH. reflexivity.
Qed.

(** On a feasible weight vector and inputs of matching shapes the report
    raises no error: the smallest non-zero weight exists and is positive,
    the largest weight lies between [1 / K] and 1, at most [K] instruments
    are counted as selected, and at least one is when [K] is below 10000. *)
Theorem report_of_feasible (covMatrix : list (list Q)) (returns : DataFrame Q)
    (df : list nace_row) (w : list Q) (K : nat) :
  feasible K w ->
  frame_shaped K covMatrix returns (map esg df) ->
  exists rep,
    report_cell covMatrix returns df w = Ok rep /\
    (n_selected rep <= K)%nat /\
    ((Z.of_nat K < 10000)%Z -> (1 <= n_selected rep)%nat) /\
    (0 < minw rep)%Q /\ (minw rep <= maxw rep)%Q /\ (maxw rep <= 1)%Q /\
    (1 <= inject_Z (Z.of_nat K) * maxw rep)%Q /\
    risk_measure covMatrix w = Ok (risk rep) /\
    numpy_dot w (frame_sum returns) = Ok (ret rep) /\
    numpy_dot w (map esg df) = Ok (esg_score rep).
Proof.
  intros (Hlen & Hbounds & Hsum) Hshape.
  unfold sum_to_one in Hsum.
  assert (Hnz : exists y l, nonzero w = y :: l).
  { destruct (nonzero w) as [|y l] eqn:E; [|eauto]. exfalso.
    assert (Hz : (Qsum w == 0)%Q).
    { apply Qsum_zero, List.Forall_forall. intros xi Hxi.
      destruct (Qeq_dec xi 0) as [Hq|Hq]; [exact Hq|].
      assert (In xi (nonzero w)) by (apply nonzero_In; tauto).
      rewrite E in *. contradiction. }
    lra. }
  destruct Hnz as (y & l & Hnz).
  pose proof Hshape as (HC & Hrows & Hcols & Hper & Hscore).
  assert (HrOk : risk_measure covMatrix w = Ok (risk_value covMatrix w)).
  { apply risk_measure_Ok; [congruence|].
    eapply List.Forall_impl; [|exact Hrows]. intros row Hrow. cbv beta in *. congruence. }
  assert (HretOk : numpy_dot w (frame_sum returns) = Ok (dot_sum w (frame_sum returns))).
  { apply numpy_dot_Ok. rewrite frame_sum_length; [congruence|].
    rewrite Hcols. exact Hper. }
  assert (HesgOk : numpy_dot w (map esg df) = Ok (dot_sum w (map esg df))).
  { apply numpy_dot_Ok. congruence. }
  destruct w as [|a w']; [discriminate|].
  eexists. split.
  { unfold report_cell. rewrite Hnz. cbn [numpy_min numpy_max mbind result_bind].
    rewrite HrOk. cbn [mbind result_bind]. rewrite HretOk. cbn [mbind result_bind].
    rewrite HesgOk. reflexivity. }
  cbn [n_selected minw maxw risk ret esg_score].
  assert (Hy : In y (a :: w') /\ ~ (y == 0)%Q).
  { apply nonzero_In. rewrite Hnz. now left. }
  assert (Hmaxle : (Qmax_from a w' <= 1)%Q).
  { apply Qmax_from_le. eapply List.Forall_impl; [|exact Hbounds]. simpl. tauto. }
  assert (Hmaxge : (1 <= inject_Z (Z.of_nat K) * Qmax_from a w')%Q).
  { rewrite <- Hlen.
    assert (Hs := Qsum_le_max (a :: w') (Qmax_from a w')
                    ltac:(apply List.Forall_forall; intros; now apply Qmax_from_ge)).
    lra. }
  split; [|split; [|split; [|split; [|split; [|split; [|auto]]]]]].
  - unfold count_selected. rewrite <- Hlen. apply filter_length_le.
  - intros HK. unfold count_selected.
    assert (Hin : In (Qmax_from a w')
                     (List.filter (fun xi => negb (Qle_bool xi 0.0001)) (a :: w'))).
    { apply filter_In. split; [apply Qmax_from_In|].
      destruct (Qle_bool (Qmax_from a w') 0.0001) eqn:E; [|reflexivity]. exfalso.
      apply Qle_bool_iff in E.
      assert (HKq : (inject_Z (Z.of_nat K) < 10000)%Q).
      { change 10000%Q with (inject_Z 10000). rewrite <- Zlt_Qlt. lia. }
      assert (HK0 : (0 <= inject_Z (Z.of_nat K))%Q).
      { change 0%Q with (inject_Z 0). rewrite <- Zle_Qle. lia. }
      pose proof (Qmult_le_compat_r _ _ (inject_Z (Z.of_nat K)) E HK0) as Hprod.
      nra. }
    destruct (List.filter _ (a :: w')); [contradiction | simpl; lia].
  - apply Qmin_from_pos. rewrite <- Hnz. apply List.Forall_forall.
    intros z Hz. apply nonzero_In in Hz as [Hz Hz0].
    rewrite List.Forall_forall in Hbounds. specialize (Hbounds z Hz).
    destruct (Qlt_le_dec 0 z) as [Hpos|Hneg]; [exact Hpos|].
    exfalso. apply Hz0. lra.
  - eapply Qle_trans; [apply Qmin_from_le; now left|].
    apply Qmax_from_ge. tauto.
  - exact Hmaxle.
  - exact Hmaxge.
Qed.

Lemma report_of_feasible_witness :
  exists rep,
    report_cell [[1; 0]; [0; 1]]%Q
      (Frame ["A.N"; "B.N"] [[1 # 100; 2 # 100]; [3 # 100; -1 # 100]]%Q)
      [NaceRow "A.N" "A" 80 "" "41"; NaceRow "B.N" "B" 90 "" "42"]
      [0; 1]%Q = Ok rep /\
    (n_selected rep <= 2)%nat /\
    ((Z.of_nat 2 < 10000)%Z -> (1 <= n_selected rep)%nat) /\
    (0 < minw rep)%Q /\ (minw rep <= maxw rep)%Q /\ (maxw rep <= 1)%Q /\
    (1 <= inject_Z (Z.of_nat 2) * maxw rep)%Q /\
    risk_measure [[1; 0]; [0; 1]]%Q [0; 1]%Q = Ok (risk rep) /\
    numpy_dot [0; 1]%Q
      (frame_sum (Frame ["A.N"; "B.N"] [[1 # 100; 2 # 100]; [3 # 100; -1 # 100]]%Q))
      = Ok (ret rep) /\
    numpy_dot [0; 1]%Q
      (map esg [NaceRow "A.N" "A" 80 "" "41"; NaceRow "B.N" "B" 90 "" "42"])
      = Ok (esg_score rep).
Proof.
  apply (report_of_feasible [[1; 0]; [0; 1]]%Q
           (Frame ["A.N"; "B.N"] [[1 # 100; 2 # 100]; [3 # 100; -1 # 100]]%Q)
           [NaceRow "A.N" "A" 80 "" "41"; NaceRow "B.N" "B" 90 "" "42"]
           [0; 1]%Q 2).
  - split; [reflexivity|]. split; [repeat constructor; discriminate | reflexivity].
  - shapes.
Defined.

Example report_cell_ex :
  report_cell [[1; 0]; [0; 1]]%Q
    (Frame ["A.N"; "B.N"] [[1 # 100; 2 # 100]; [3 # 100; -1 # 100]]%Q)
    [NaceRow "A.N" "A" 80 "" "41"; NaceRow "B.N" "B" 90 "" "42"]
    [0; 1]%Q =
  Ok (Report 1 1 (Qmax 0 1) (0 * (1 * 0 + (0 * 1 + 0)) + (1 * (0 * 0 + (1 * 1 + 0)) + 0))
             (0 * ((1 # 100) + ((3 # 100) + 0)) + (1 * ((2 # 100) + ((-1 # 100) + 0)) + 0))
             (0 * 80 + (1 * 90 + 0)))%Q.
Proof. reflexivity. Qed.

(** A weight vector without a non-zero entry, the empty one included,
    makes the report raise [ValueError]: the minimum of the non-zero
    weights is taken over an empty array. *)
Theorem report_of_zero_weights (covMatrix : list (list Q)) (returns : DataFrame Q)
    (df : list nace_row) (x : list Q) :
  Forall (fun xi => xi == 0)%Q x ->
  nonzero x = [] /\
  numpy_min (nonzero x) = Raise ValueError /\
  report_cell covMatrix returns df x = Raise ValueError.
Proof.
  intros Hz.
  assert (Hnz : nonzero x = []).
  { unfold nonzero. induction Hz as [|xi x Hxi _ IH]; simpl; [reflexivity|].
    apply Qeq_bool_iff in Hxi. rewrite Hxi. simpl. exact IH. }
  split; [exact Hnz|]. unfold report_cell. rewrite Hnz. split; reflexivity.
Qed.

Lemma report_of_zero_weights_witness :
  report_cell [[1; 0]; [0; 1]]%Q (Frame ["A.N"; "B.N"] [[1 # 100; 2 # 100]]%Q)
    [NaceRow "A.N" "A" 80 "" "41"; NaceRow "B.N" "B" 90 "" "42"] [0; 0]%Q =
  Raise ValueError.
Proof.
  apply (report_of_zero_weights [[1; 0]; [0; 1]]%Q
           (Frame ["A.N"; "B.N"] [[1 # 100; 2 # 100]]%Q)
           [NaceRow "A.N" "A" 80 "" "41"; NaceRow "B.N" "B" 90 "" "42"] [0; 0]%Q).
  repeat constructor.
Defined.

(** ** Returns of positive prices *)

Lemma pct_cell_fin (cur prev : Q) :
  (0 < prev)%Q -> pct_cell cur prev = Fin (cur / prev - 1).
Proof.
  intros Hprev. unfold pct_cell, fdiv.
  destruct (Qeq_bool prev 0) eqn:E; [|reflexivity].
  apply Qeq_bool_iff in E. lra.
Qed.

Lemma pct_row_fin (cur prev : list Q) :
  Forall (fun p => 0 < p)%Q prev ->
  forallb is_fin (zip_with pct_cell cur prev) = true /\
  zip_with pct_cell cur prev = zip_with (fun c p => Fin (c / p - 1)) cur prev.
Proof.
  intros Hprev. revert cur.
  induction Hprev as [|p prev Hp _ IH]; intros [|c cur]; simpl; try (split; reflexivity).
  destruct (IH cur) as [Hfin Heq].
  rewrite pct_cell_fin by exact Hp. simpl. rewrite Hfin, Heq. split; reflexivity.
Qed.

Lemma pct_rows_fin (prev : list Q) (rest : list (list Q)) :
  Forall (fun p => 0 < p)%Q prev -> Forall (Forall (fun p => 0 < p)%Q) rest ->
  List.filter (forallb is_fin) (pct_rows prev rest) = pct_rows prev rest /\
  Forall (fun row => forallb is_fin row = true) (pct_rows prev rest).
Proof.
  intros Hprev Hrest. revert prev Hprev.
  induction Hrest as [|cur rest Hcur _ IH]; intros prev Hprev; simpl.
  - split; [reflexivity | constructor].
  - destruct (pct_row_fin cur prev Hprev) as [Hfin _].
    destruct (IH cur Hcur) as [Hf Hall].
    rewrite Hfin, Hf. split; [reflexivity | constructor; assumption].
Qed.

Lemma pct_rows_length (prev : list Q) (rest : list (list Q)) :
  List.length (pct_rows prev rest) = List.length rest.
Proof.
  revert prev. induction rest as [|cur rest IH]; intros prev; simpl;
    [reflexivity | now rewrite IH].
Qed.

Lemma nan_row_dropped {A : Type} (first : list A) :
  first <> [] -> forallb is_fin (map (fun _ => NaN) first) = false.
Proof.
  destruct first; [congruence | reflexivity].
Qed.

(** On prices that are all positive, with at least one instrument, the
    return series drops the first period and nothing else: one row of
    finite returns [p_t / p_(t-1) - 1] is left for every later period. *)
Theorem returns_of_positive_prices (cols : list string) (first : list Q)
    (rest : list (list Q)) :
  first <> [] ->
  Forall (Forall (fun p => 0 < p)%Q) (first :: rest) ->
  rows (returns_of (Frame cols (first :: rest))) = pct_rows first rest /\
  List.length (rows (returns_of (Frame cols (first :: rest)))) = List.length rest /\
  Forall (Forall (fun v => is_fin v = true)) (rows (returns_of (Frame cols (first :: rest)))) /\
  columns (returns_of (Frame cols (first :: rest))) = cols.
Proof.
  intros Hne Hpos. inversion Hpos as [|? ? Hfirst Hrest]; subst.
  assert (Hnn : Forall (Forall (fun p => 0 <= p)%Q) (first :: rest)).
  { eapply List.Forall_impl; [|exact Hpos]. intros row Hrow.
    eapply List.Forall_impl; [|exact Hrow]. intros p Hp. simpl in *. lra. }
  assert (Hrows : rows (returns_of (Frame cols (first :: rest))) = pct_rows first rest).
  { unfold returns_of, dropna, replace_inf. cbn [rows].
    rewrite dropna_replace_rows by (apply (pct_change_nonneg (Frame cols (first :: rest))), Hnn).
    unfold pct_change. cbn [rows List.filter].
    rewrite nan_row_dropped by exact Hne.
    apply pct_rows_fin; assumption. }
  split; [exact Hrows|]. split; [|split; [|reflexivity]].
  - rewrite Hrows. apply pct_rows_length.
  - rewrite Hrows. destruct (pct_rows_fin first rest Hfirst Hrest) as [_ Hall].
    eapply List.Forall_impl; [|exact Hall]. intros row Hrow.
    apply List.Forall_forall. intros v Hv.
    rewrite forallb_forall in Hrow. apply Hrow, Hv.
Qed.

Lemma returns_of_positive_prices_witness :
  rows (returns_of (Frame ["A.N"; "B.N"] [[10; 4]; [11; 5]; [12; 5]]%Q)) =
  pct_rows [10; 4]%Q [[11; 5]; [12; 5]]%Q.
Proof.
  apply (returns_of_positive_prices ["A.N"; "B.N"] [10; 4]%Q [[11; 5]; [12; 5]]%Q).
  - discriminate.
  - repeat constructor.
Defined.

Lemma zip_with_length_same {A B C : Type} (f : A -> B -> C) (u : list A) (v : list B) (n : nat) :
  List.length u = n -> List.length v = n -> List.length (zip_with f u v) = n.
Proof.
  revert v n. induction u as [|a u IH]; intros [|b v] n Hu Hv; simpl in *; subst;
    try discriminate; [reflexivity|].
  f_equal. apply (IH v); [reflexivity | lia].
Qed.

Lemma pct_rows_width (n : nat) (prev : list Q) (rest : list (list Q)) :
  List.length prev = n -> Forall (fun row => List.length row = n) rest ->
  Forall (fun row => List.length row = n) (pct_rows prev rest).
Proof.
  intros Hprev Hrest. revert prev Hprev.
  induction Hrest as [|cur rest Hcur _ IH]; intros prev Hprev; simpl; constructor.
  - apply zip_with_length_same; assumption.
  - apply IH, Hcur.
Qed.

(** The return series keeps the columns of the price frame and the width
    of its rows, and, with at least one instrument, has at least one
    period less: the first period is always dropped. *)
Theorem returns_shape (d : DataFrame Q) (n : nat) :
  Forall (fun row => List.length row = n) (rows d) ->
  columns (returns_of d) = columns d /\
  Forall (fun row => List.length row = n) (rows (returns_of d)) /\
  ((0 < n)%nat -> (List.length (rows (returns_of d)) <= List.length (rows d) - 1)%nat).
Proof.
  intros Hw. split; [reflexivity|].
  assert (Hpct : Forall (fun row => List.length row = n) (rows (pct_change d))).
  { unfold pct_change. cbn [rows]. destruct Hw as [|first rest Hf Hr]; constructor.
    - now rewrite length_map.
    - apply pct_rows_width; assumption. }
  split.
  - unfold returns_of, dropna, replace_inf. cbn [rows].
    apply List.Forall_forall. intros row Hrow.
    apply filter_In in Hrow as [Hrow _].
    apply in_map_iff in Hrow as (row0 & <- & Hrow0).
    rewrite length_map. rewrite List.Forall_forall in Hpct. now apply Hpct.
  - intros Hn. unfold returns_of, dropna, replace_inf, pct_change. cbn [rows].
    destruct Hw as [|first rest Hf Hr]; [simpl; lia|].
    cbn [map List.filter].
    assert (Hnan : existsb is_nan (map replace_inf_cell (map (fun _ => NaN) first)) = true).
    { destruct first; [simpl in Hf; lia | reflexivity]. }
    rewrite Hnan. cbn [negb List.length].
    etransitivity; [apply filter_length_le|].
    rewrite length_map, pct_rows_length. lia.
Qed.

Lemma returns_shape_witness :
  (List.length (rows (returns_of (Frame ["A.N"; "B.N"] [[10; 0]; [11; 5]; [0; 5]; [3; 6]]%Q)))
   <= List.length (rows (Frame ["A.N"; "B.N"] [[10; 0]; [11; 5]; [0; 5]; [3; 6]]%Q)) - 1)%nat.
Proof.
  apply (returns_shape (Frame ["A.N"; "B.N"] [[10; 0]; [11; 5]; [0; 5]; [3; 6]]%Q) 2).
  - repeat constructor.
  - lia.
Defined.

(** ** The three portfolios compared *)

(** Of an optimal minimum-volatility portfolio and a portfolio optimal
    for a blended objective over the same data, the first has the smaller
    risk measure and the second the larger weighted reward
    [returnCoef * return + scoreCoef * score]. *)
Theorem mvp_least_risk (returnCoef scoreCoef : Q) (C : list (list Q))
    (returns : DataFrame Q) (score : list Q) (K : nat) (w0 w1 : list Q) :
  frame_shaped K C returns score ->
  is_minimizer (mvp_objective C) K w0 ->
  is_minimizer (blended_objective returnCoef scoreCoef C returns score) K w1 ->
  exists r0 r1 g0 g1 s0 s1,
    risk_measure C w0 = Ok r0 /\ risk_measure C w1 = Ok r1 /\
    numpy_dot w0 (frame_sum returns) = Ok g0 /\ numpy_dot w1 (frame_sum returns) = Ok g1 /\
    score_metric score w0 = Ok s0 /\ score_metric score w1 = Ok s1 /\
    (r0 <= r1)%Q /\
    (returnCoef * g0 + scoreCoef * s0 <= returnCoef * g1 + scoreCoef * s1)%Q.
Proof.
  intros Hshape (Hf0 & v0 & Hv0 & Hmin0) (Hf1 & v1 & Hv1 & Hmin1).
  pose proof Hshape as (HC & Hrows & Hcols & Hper & Hscore).
  assert (Hrisk : forall w, feasible K w -> risk_measure C w = Ok (risk_value C w)).
  { intros w (Hlen & _). apply risk_measure_Ok; [congruence|].
    eapply List.Forall_impl; [|exact Hrows]. intros row Hrow. cbv beta in *. congruence. }
  assert (Hret : forall w, feasible K w ->
                 numpy_dot w (frame_sum returns) = Ok (dot_sum w (frame_sum returns))).
  { intros w (Hlen & _). apply numpy_dot_Ok.
    rewrite frame_sum_length; [congruence|]. rewrite Hcols. exact Hper. }
  exists (risk_value C w0), (risk_value C w1),
         (dot_sum w0 (frame_sum returns)), (dot_sum w1 (frame_sum returns)),
         (dot_sum w0 score), (dot_sum w1 score).
  rewrite !Hrisk, !Hret by assumption.
  rewrite !(feasible_score_metric C returns score K Hshape) by assumption.
  repeat split; try reflexivity.
  - unfold mvp_objective in *. rewrite Hrisk in Hv0 by assumption.
    injection Hv0 as <-. apply (Hmin0 w1); [exact Hf1 | apply Hrisk, Hf1].
  - pose proof (feasible_objective returnCoef C returns score K Hshape scoreCoef) as Hobj.
    rewrite Hobj in Hv1 by assumption. injection Hv1 as <-.
    pose proof (Hmin1 w0 _ Hf0 (Hobj w0 Hf0)) as H10.
    unfold mvp_objective in *. rewrite Hrisk in Hv0 by assumption.
    injection Hv0 as <-.
    pose proof (Hmin0 w1 _ Hf1 (Hrisk w1 Hf1)) as H01.
    lra.
Qed.

Lemma mvp_minimizer_two_assets :
  is_minimizer (mvp_objective [[1; 0]; [0; 1]]%Q) 2 [1 # 2; 1 # 2]%Q.
Proof.
  split.
  - split; [reflexivity|]. split; [repeat constructor; discriminate | reflexivity].
  - eexists. split; [reflexivity|].
    intros w' v' (Hlen & _ & Hone) Hv'.
    destruct w' as [|a [|b [|? ?]]]; try discriminate.
    unfold mvp_objective in Hv'. rewrite risk_measure_Ok in Hv' by (repeat constructor).
    injection Hv' as <-.
    unfold sum_to_one in Hone.
    unfold risk_value, dot_sum, Qsum in *. cbn [zip_with map fold_right] in *.
    pose proof (Qsq_nonneg (a - b)) as Hsq.
    assert (Hone2 : ((a + b - 1) * (a + b + 1) == 0)%Q).
    { assert (Hz : (a + b - 1 == 0)%Q) by lra. rewrite Hz. ring. }
    nra.
Qed.

Lemma mvp_least_risk_witness :
  exists r0 r1 g0 g1 s0 s1,
    risk_measure [[1; 0]; [0; 1]]%Q [1 # 2; 1 # 2]%Q = Ok r0 /\
    risk_measure [[1; 0]; [0; 1]]%Q [1 # 4; 3 # 4]%Q = Ok r1 /\
    numpy_dot [1 # 2; 1 # 2]%Q (frame_sum (Frame ["A.N"; "B.N"] [[1 # 100; 1 # 100]]%Q)) = Ok g0 /\
    numpy_dot [1 # 4; 3 # 4]%Q (frame_sum (Frame ["A.N"; "B.N"] [[1 # 100; 1 # 100]]%Q)) = Ok g1 /\
    score_metric [1; 2]%Q [1 # 2; 1 # 2]%Q = Ok s0 /\
    score_metric [1; 2]%Q [1 # 4; 3 # 4]%Q = Ok s1 /\
    (r0 <= r1)%Q /\
    (0.0002 * g0 + 1 * s0 <= 0.0002 * g1 + 1 * s1)%Q.
Proof.
  apply (mvp_least_risk 0.0002 1 [[1; 0]; [0; 1]]%Q
           (Frame ["A.N"; "B.N"] [[1 # 100; 1 # 100]]%Q) [1; 2]%Q 2).
  - shapes.
  - exact mvp_minimizer_two_assets.
  - apply two_asset_minimizer; [reflexivity | split; discriminate ..| reflexivity].
Defined.

(** ** The covariance matrix *)

Lemma dot_sum_comm (u v : list Q) : (dot_sum u v == dot_sum v u)%Q.
Proof.
  unfold dot_sum. revert v. induction u as [|a u IH]; intros [|b v]; try reflexivity.
  cbn [zip_with Qsum fold_right]. fold (Qsum (zip_with Qmult u v)).
  fold (Qsum (zip_with Qmult v u)). rewrite IH. ring.
Qed.

Lemma dot_sum_plus (u a b : list Q) :
  List.length a = List.length b ->
  (dot_sum u (zip_with Qplus a b) == dot_sum u a + dot_sum u b)%Q.
Proof.
  unfold dot_sum. revert a b. induction u as [|x u IH]; intros [|y a] [|z b] Hlen;
    try discriminate; cbn [zip_with Qsum fold_right]; try ring.
  fold (Qsum (zip_with Qmult u (zip_with Qplus a b))).
  fold (Qsum (zip_with Qmult u a)). fold (Qsum (zip_with Qmult u b)).
  rewrite IH by (simpl in Hlen; lia). ring.
Qed.

Lemma dot_sum_scale (c : Q) (u a : list Q) :
  (dot_sum u (map (Qmult c) a) == c * dot_sum u a)%Q.
Proof.
  unfold dot_sum. revert a. induction u as [|x u IH]; intros [|y a];
    cbn [map zip_with Qsum fold_right]; try ring.
  fold (Qsum (zip_with Qmult u (map (Qmult c) a))). fold (Qsum (zip_with Qmult u a)).
  rewrite IH. ring.
Qed.

Lemma dot_sum_zeros (u : list Q) (N : nat) : (dot_sum u (repeat 0 N) == 0)%Q.
Proof.
  unfold dot_sum. revert N. induction u as [|x u IH]; intros [|N];
    cbn [repeat zip_with Qsum fold_right]; try reflexivity.
  fold (Qsum (zip_with Qmult u (repeat 0%Q N))). rewrite IH. ring.
Qed.

Lemma dot_sum_self_nonneg (y : list Q) : (0 <= dot_sum y y)%Q.
Proof.
  unfold dot_sum. induction y as [|a y IH]; cbn [zip_with Qsum fold_right].
  - apply Qle_refl.
  - fold (Qsum (zip_with Qmult y y)). pose proof (Qsq_nonneg a). lra.
Qed.

Lemma dot_sum_map_ext {A : Type} (w : list Q) (f g : A -> Q) (l : list A) :
  (forall a, In a l -> f a == g a)%Q ->
  (dot_sum w (map f l) == dot_sum w (map g l))%Q.
Proof.
  unfold dot_sum. revert w. induction l as [|a l IH]; intros [|x w] H;
    cbn [map zip_with Qsum fold_right]; try reflexivity.
  fold (Qsum (zip_with Qmult w (map f l))). fold (Qsum (zip_with Qmult w (map g l))).
  rewrite (H a) by now left. rewrite IH; [reflexivity|].
  intros a' Ha'. apply H. now right.
Qed.

Lemma dot_sum_map_div {A : Type} (w : list Q) (f : A -> Q) (q : Q) (l : list A) :
  (dot_sum w (map (fun a => f a / q) l) == dot_sum w (map f l) / q)%Q.
Proof.
  unfold dot_sum, Qdiv. revert w. induction l as [|a l IH]; intros [|x w];
    cbn [map zip_with Qsum fold_right]; try ring.
  fold (Qsum (zip_with Qmult w (map (fun a => f a * / q)%Q l))).
  fold (Qsum (zip_with Qmult w (map f l))). rewrite IH. ring.
Qed.

Lemma lincomb_length (N : nat) (w : list Q) (Ds : list (list Q)) :
  Forall (fun D => List.length D = N) Ds -> List.length (lincomb N w Ds) = N.
Proof.
  intros HD. revert w. induction HD as [|D Ds HDl _ IH]; intros [|wi w]; simpl;
    try apply repeat_length.
  apply zip_with_length_same; [now rewrite length_map | apply IH].
Qed.

(** [sum_j (u . D_j) w_j = u . (sum_j w_j D_j)] *)
Lemma dot_sum_lincomb_r (N : nat) (u : list Q) (w : list Q) (Ds : list (list Q)) :
  Forall (fun D => List.length D = N) Ds -> List.length w = List.length Ds ->
  (dot_sum (map (dot_sum u) Ds) w == dot_sum u (lincomb N w Ds))%Q.
Proof.
  intros HD. revert w. induction HD as [|D Ds HDl HDs IH]; intros [|wi w] Hlen;
    try discriminate.
  - simpl. rewrite dot_sum_zeros. reflexivity.
  - cbn [map lincomb]. rewrite dot_sum_plus.
    2:{ rewrite length_map, lincomb_length by assumption. exact HDl. }
    rewrite dot_sum_scale, <- IH by (simpl in Hlen; lia).
    unfold dot_sum at 1. cbn [zip_with Qsum fold_right].
    fold (Qsum (zip_with Qmult (map (dot_sum u) Ds) w)).
    fold (dot_sum (map (dot_sum u) Ds) w). ring.
Qed.

(** [sum_i w_i (D_i . y) = (sum_i w_i D_i) . y] *)
Lemma dot_sum_lincomb_l (N : nat) (y : list Q) (w : list Q) (Ds : list (list Q)) :
  Forall (fun D => List.length D = N) Ds -> List.length w = List.length Ds ->
  (dot_sum w (map (fun D => dot_sum D y) Ds) == dot_sum (lincomb N w Ds) y)%Q.
Proof.
  intros HD Hlen.
  rewrite (dot_sum_map_ext w (fun D => dot_sum D y) (dot_sum y) Ds)
    by (intros; apply dot_sum_comm).
  rewrite dot_sum_comm, (dot_sum_lincomb_r N) by assumption.
  apply dot_sum_comm.
Qed.

Lemma frame_columns_length (d : DataFrame Q) :
  List.length (frame_columns d) = List.length (columns d) /\
  Forall (fun c => List.length c = List.length (rows d)) (frame_columns d).
Proof.
  unfold frame_columns. split; [now rewrite length_map, length_seq|].
  apply List.Forall_forall. intros c Hc.
  apply in_map_iff in Hc as (i & <- & _). unfold column. apply length_map.
Qed.

Lemma deviations_length (c : list Q) : List.length (deviations c) = List.length c.
Proof. unfold deviations. apply length_map. Qed.

Lemma cov_value_comm (ci cj : list Q) :
  List.length ci = List.length cj -> (cov_value ci cj == cov_value cj ci)%Q.
Proof.
  intros Hlen. unfold cov_value. rewrite Hlen, dot_sum_comm. reflexivity.
Qed.

Lemma cov_values_entry (d : DataFrame Q) (i j : nat) :
  (i < List.length (columns d))%nat -> (j < List.length (columns d))%nat ->
  entry (cov_values d) i j =
  cov_value (nth i (frame_columns d) []) (nth j (frame_columns d) []).
Proof.
  intros Hi Hj. destruct (frame_columns_length d) as [HK _].
  unfold entry, cov_values.
  rewrite (nth_indep _ [] (map (cov_value []) (frame_columns d)))
    by (rewrite length_map; lia).
  rewrite (map_nth (fun ci => map (cov_value ci) (frame_columns d)) (frame_columns d) [] i).
  rewrite (nth_indep _ 0%Q (cov_value (nth i (frame_columns d) []) []))
    by (rewrite length_map; lia).
  apply (map_nth (cov_value (nth i (frame_columns d) [])) (frame_columns d) [] j).
Qed.

Lemma cov_values_shape (d : DataFrame Q) :
  List.length (cov_values d) = List.length (columns d) /\
  Forall (fun row => List.length row = List.length (columns d)) (cov_values d).
Proof.
  destruct (frame_columns_length d) as [HK _]. unfold cov_values. split.
  - now rewrite length_map.
  - apply List.Forall_forall. intros row Hrow.
    apply in_map_iff in Hrow as (ci & <- & _). now rewrite length_map.
Qed.

(** One row of the covariance matrix against a weight vector. *)
Lemma cov_row_dot (d : DataFrame Q) (w ci : list Q) :
  In ci (frame_columns d) -> List.length w = List.length (columns d) ->
  (dot_sum (map (cov_value ci) (frame_columns d)) w ==
   dot_sum (deviations ci)
           (lincomb (List.length (rows d)) w (map deviations (frame_columns d)))
   / (inject_Z (Z.of_nat (List.length (rows d))) - 1))%Q.
Proof.
  intros Hci Hw. destruct (frame_columns_length d) as [HK Hcols].
  pose proof (proj1 (List.Forall_forall _ _) Hcols ci Hci) as Hlen. cbv beta in Hlen.
  rewrite dot_sum_comm.
  rewrite (dot_sum_map_ext w (cov_value ci)
             (fun cj => dot_sum (deviations ci) (deviations cj)
                        / (inject_Z (Z.of_nat (List.length (rows d))) - 1))%Q)
    by (intros cj _; unfold cov_value; rewrite Hlen; reflexivity).
  rewrite (dot_sum_map_div w (fun cj => dot_sum (deviations ci) (deviations cj))).
  rewrite dot_sum_comm.
  rewrite <- (map_map deviations (dot_sum (deviations ci))).
  rewrite (dot_sum_lincomb_r (List.length (rows d))); [reflexivity | |].
  - apply List.Forall_forall. intros D HD.
    apply in_map_iff in HD as (c & <- & Hc). rewrite deviations_length.
    exact (proj1 (List.Forall_forall _ _) Hcols c Hc).
  - rewrite length_map. congruence.
Qed.

Lemma cov_quadratic_form (d : DataFrame Q) (w : list Q) :
  List.length w = List.length (columns d) ->
  (risk_value (cov_values d) w ==
   dot_sum (lincomb (List.length (rows d)) w (map deviations (frame_columns d)))
           (lincomb (List.length (rows d)) w (map deviations (frame_columns d)))
   / (inject_Z (Z.of_nat (List.length (rows d))) - 1))%Q.
Proof.
  intros Hw. destruct (frame_columns_length d) as [HK Hcols].
  unfold risk_value, cov_values. rewrite map_map.
  rewrite (dot_sum_map_ext w _ _ (frame_columns d) (fun ci Hci => cov_row_dot d w ci Hci Hw)).
  rewrite (dot_sum_map_div w
             (fun ci => dot_sum (deviations ci)
                          (lincomb (List.length (rows d)) w (map deviations (frame_columns d))))).
  rewrite <- (map_map deviations
                (fun D => dot_sum D (lincomb (List.length (rows d)) w
                                             (map deviations (frame_columns d))))).
  rewrite (dot_sum_lincomb_l (List.length (rows d))); [reflexivity | |].
  - apply List.Forall_forall. intros D HD.
    apply in_map_iff in HD as (c & <- & Hc). rewrite deviations_length.
    exact (proj1 (List.Forall_forall _ _) Hcols c Hc).
  - rewrite length_map. congruence.
Qed.

(** The covariance matrix of a frame with [K] columns is [K] by [K] and
    symmetric.  With fewer than two periods all its cells are missing;
    with two or more they are finite, and the risk measure of every
    portfolio against it is defined and not negative. *)
Theorem cov_symmetric_nonnegative (d : DataFrame Q) :
  List.length (cov d) = List.length (columns d) /\
  Forall (fun row => List.length row = List.length (columns d)) (cov d) /\
  (forall i j, (i < List.length (columns d))%nat -> (j < List.length (columns d))%nat ->
     (entry (cov_values d) i j == entry (cov_values d) j i)%Q) /\
  ((List.length (rows d) <= 1)%nat -> Forall (Forall (fun v => v = NaN)) (cov d)) /\
  ((2 <= List.length (rows d))%nat ->
   cov d = map (map Fin) (cov_values d) /\
   forall w, List.length w = List.length (columns d) ->
     exists v, risk_measure (cov_values d) w = Ok v /\ (0 <= v)%Q).
Proof.
  destruct (cov_values_shape d) as [HK Hrows].
  destruct (frame_columns_length d) as [HKc Hcols].
  split; [|split; [|split; [|split]]].
  - unfold cov. now rewrite length_map.
  - unfold cov. apply List.Forall_forall. intros row Hrow.
    apply in_map_iff in Hrow as (r0 & <- & Hr0). rewrite length_map.
    exact (proj1 (List.Forall_forall _ _) Hrows r0 Hr0).
  - intros i j Hi Hj. rewrite !cov_values_entry by assumption.
    apply cov_value_comm.
    rewrite (proj1 (List.Forall_forall _ _) Hcols (nth i (frame_columns d) []))
      by (apply nth_In; lia).
    symmetry. apply (proj1 (List.Forall_forall _ _) Hcols). apply nth_In. lia.
  - intros HN. unfold cov.
    destruct (Nat.leb_spec (List.length (rows d)) 1) as [_|Hgt]; [|lia].
    apply List.Forall_forall. intros row Hrow.
    apply in_map_iff in Hrow as (r0 & <- & _).
    apply List.Forall_forall. intros v Hv.
    apply in_map_iff in Hv as (v0 & <- & _). reflexivity.
  - intros HN. split.
    + unfold cov. destruct (Nat.leb_spec (List.length (rows d)) 1) as [Hle|_]; [lia|].
      reflexivity.
    + intros w Hw. exists (risk_value (cov_values d) w). split.
      * apply risk_measure_Ok; [congruence|].
        eapply List.Forall_impl; [|exact Hrows]. intros row Hrow. cbv beta in *. congruence.
      * rewrite cov_quadratic_form by exact Hw.
        apply Qle_shift_div_l.
        -- assert (H2 : (2 <= inject_Z (Z.of_nat (List.length (rows d))))%Q).
           { change 2%Q with (inject_Z 2). rewrite <- Zle_Qle. lia. }
           lra.
        -- rewrite Qmult_0_l. apply dot_sum_self_nonneg.
Qed.

Lemma cov_symmetric_nonnegative_witness :
  cov (Frame ["A.N"; "B.N"] [[1 # 100; 2 # 100]; [3 # 100; -1 # 100]; [0; 1 # 100]]%Q) =
  map (map Fin)
    (cov_values (Frame ["A.N"; "B.N"] [[1 # 100; 2 # 100]; [3 # 100; -1 # 100]; [0; 1 # 100]]%Q)) /\
  (forall w, List.length w = 2%nat ->
     exists v,
       risk_measure
         (cov_values (Frame ["A.N"; "B.N"]
                        [[1 # 100; 2 # 100]; [3 # 100; -1 # 100]; [0; 1 # 100]]%Q)) w = Ok v /\
       (0 <= v)%Q).
Proof.
  apply (cov_symmetric_nonnegative
           (Frame ["A.N"; "B.N"] [[1 # 100; 2 # 100]; [3 # 100; -1 # 100]; [0; 1 # 100]]%Q)).
  cbn. lia.
Defined.

Example cov_ex :
  Forall2 (Forall2 (fun v q => exists p, v = Fin p /\ (p == q)%Q))
    (cov (Frame ["A.N"; "B.N"] [[1; 2]; [3; 0]; [2; 1]]%Q))
    [[1; -1]; [-1; 1]]%Q /\
  cov (Frame ["A.N"; "B.N"] [[1; 2]]%Q) = [[NaN; NaN]; [NaN; NaN]].
Proof.
  split; [|reflexivity].
  repeat constructor; eexists; (split; [reflexivity|]); reflexivity.
Qed.

(** ** One solver call per cell *)

(** With at least one instrument a cell calls the solver exactly once, on
    the uniform initial guess, and its outcome is the outcome of that call:
    the result the solver returns, whatever its [success] flag, or the
    exception the solver raises; the cell does not call the solver again. *)
Theorem solver_called_once (objective : list Q -> result Q) (K : nat)
    (solver : minimize_call -> result OptimizeResult) :
  (0 < K)%nat ->
  exists call,
    x0 call = repeat (1 / inject_Z (Z.of_nat K))%Q K /\
    fun_ call = objective /\
    run solver (minimize_cell objective K) = (solver call, [call]).
Proof.
  intros HK.
  exists (MinimizeCall objective (repeat (1 / inject_Z (Z.of_nat K))%Q K)
                       (bounds_of K) sum_to_one).
  rewrite (minimize_cell_pos objective K HK), run_minimize_cell.
  split; [reflexivity|]. split; reflexivity.
Qed.

Lemma solver_called_once_witness :
  exists call,
    x0 call = repeat (1 / inject_Z (Z.of_nat 2))%Q 2 /\
    fun_ call = mvp_objective [[1; 0]; [0; 1]]%Q /\
    run (fun _ => Raise ValueError) (minimize_cell (mvp_objective [[1; 0]; [0; 1]]%Q) 2) =
      (Raise ValueError, [call]).
Proof.
  apply (solver_called_once (mvp_objective [[1; 0]; [0; 1]]%Q) 2 (fun _ => Raise ValueError)).
  lia.
Defined.
